(** * Realtime collaboration subsystem

    A shallow embedding of the two hooks of the collaboration core,
    [useRealtime] (the connection manager) and [useTeamCollaboration]
    (team membership, invites and settings), with the properties of the
    specification stated and proved over them.

    Conventions of the embedding:
    - a React ref ([useRef]) and the [connection] state cell are fields of
      one explicit state record that every callback takes and returns;
    - calls on the realtime transport ([supabase.channel], [channel.track],
      [channel.unsubscribe], [channel.send]) are recorded in a log, most
      recent first;
    - [setTimeout]/[setInterval] handles are natural numbers, the pending
      ones are kept in sets;
    - the wall clock ([Date.now], [new Date()]) and [Math.random] are
      arguments of the callbacks that read them;
    - timestamps are integers (milliseconds), delays are rationals. *)

From Stdlib Require Import ZArith QArith Qminmax Lia.
From stdpp Require Import gmap strings list fin_maps.

Set Warnings "-register-all".

(** JSON values, for [Record<string, any>] payloads and [jsonb] columns.
    An object keeps its keys in insertion order. *)
Inductive json : Type :=
  | JNull
  | JBool (b : bool)
  | JNum (n : Z)
  | JStr (s : string)
  | JArr (l : list json)
  | JObj (l : list (string * json)).

(** [Object.keys]. *)
Definition object_keys (o : list (string * json)) : list string := o.*1.

(** [String.prototype.includes]. *)
Fixpoint includes (needle hay : string) : bool :=
  String.prefix needle hay ||
  match hay with
  | EmptyString => false
  | String _ rest => includes needle rest
  end.

Module Realtime.

(** ** Data model (types/team.ts) *)

Inductive ConnectionStatus :=
  connecting | connected | disconnected | error | reconnecting.

Inductive PresenceStatus := online | away | busy | offline.

#[global] Instance ConnectionStatus_eq_dec : EqDecision ConnectionStatus.
Proof. solve_decision. Defined.

Record CursorPosition := {
  x : Z; y : Z; cursor_element_id : option string }.

Record TextSelection := {
  sel_start : Z; sel_end : Z; sel_element_id : string; sel_text : string }.

Record UserPresence := {
  user_id : string;
  team_id : string;
  status : PresenceStatus;
  last_seen : Z;
  current_page : option string;
  cursor_position : option CursorPosition;
  selection : option TextSelection;
  metadata : option (list (string * json)) }.

(** [Partial<UserPresence>]: [None] is an absent key. *)
Record PartialPresence := {
  p_user_id : option string;
  p_team_id : option string;
  p_status : option PresenceStatus;
  p_last_seen : option Z;
  p_current_page : option string;
  p_cursor_position : option CursorPosition;
  p_selection : option TextSelection;
  p_metadata : option (list (string * json)) }.

Record RealtimeConnection := {
  id : string;
  conn_status : ConnectionStatus;
  last_ping : Z;
  reconnect_attempts : nat;
  subscriptions : list string;
  conn_error : option string }.

(** A physical [RealtimeChannel] object: its identity and its topic. *)
Record RealtimeChannel := { handle : nat; topic : string }.

(** A subscriber callback, known by its identity only. *)
Definition callback := nat.

Record ChannelSubscription := {
  channel : RealtimeChannel;
  callbacks : gmap string callback;
  lastActivity : Z }.

Record RealtimeConfig := {
  heartbeatInterval : Q;
  reconnectInterval : Q;
  maxReconnectAttempts : nat;
  presenceUpdateInterval : Q }.

Definition DEFAULT_CONFIG : RealtimeConfig := {|
  heartbeatInterval := 30000;
  reconnectInterval := 1000;
  maxReconnectAttempts := 10;
  presenceUpdateInterval := 5000 |}.

(** ** Reconnection delay *)

(** [Math.pow(2, attempt)] for a counter value. *)
Definition pow2 (attempt : nat) : Q := inject_Z (2 ^ Z.of_nat attempt).

Definition maxDelay : Q := 30000.

(** The part of [getReconnectDelay] before the jitter is added. *)
Definition backoff (cfg : RealtimeConfig) (attempt : nat) : Q :=
  Qmin (reconnectInterval cfg * pow2 attempt) maxDelay.

(** [getReconnectDelay]; [random] is the value of [Math.random()].  Delays
    are exact rationals; the source adds in doubles, where the sum is
    rounded, so bounds on the delay are stated closed. *)
Definition getReconnectDelay (cfg : RealtimeConfig) (attempt : nat) (random : Q) : Q :=
  backoff cfg attempt + random * 1000.

(** ** State of the hook *)

(** Calls made on the realtime transport. *)
Inductive transport_call :=
  | ChannelCreated (ch : RealtimeChannel)
  | ChannelUnsubscribed (ch : RealtimeChannel)
  | Tracked (ch : RealtimeChannel) (p : UserPresence)
  | Sent (ch : RealtimeChannel) (event : string) (payload : json).

Record state := {
  user : option string;                          (* useAuthStore().user, by id *)
  connection : RealtimeConnection;               (* useState *)
  channelsRef : gmap string ChannelSubscription;
  heartbeatRef : option nat;
  reconnectTimeoutRef : option nat;
  presenceRef : option UserPresence;
  isConnectingRef : bool;
  timeouts : gmap nat Q;                         (* pending setTimeout handles and delays *)
  intervals : gset nat;                          (* running setInterval handles *)
  fresh : nat;                                   (* next unused handle *)
  transport : list transport_call }.

Definition set_connection (c : RealtimeConnection) (s : state) : state :=
  Build_state (user s) c (channelsRef s) (heartbeatRef s) (reconnectTimeoutRef s)
    (presenceRef s) (isConnectingRef s) (timeouts s) (intervals s) (fresh s) (transport s).

Definition set_channelsRef (m : gmap string ChannelSubscription) (s : state) : state :=
  Build_state (user s) (connection s) m (heartbeatRef s) (reconnectTimeoutRef s)
    (presenceRef s) (isConnectingRef s) (timeouts s) (intervals s) (fresh s) (transport s).

Definition set_heartbeatRef (h : option nat) (s : state) : state :=
  Build_state (user s) (connection s) (channelsRef s) h (reconnectTimeoutRef s)
    (presenceRef s) (isConnectingRef s) (timeouts s) (intervals s) (fresh s) (transport s).

Definition set_reconnectTimeoutRef (h : option nat) (s : state) : state :=
  Build_state (user s) (connection s) (channelsRef s) (heartbeatRef s) h
    (presenceRef s) (isConnectingRef s) (timeouts s) (intervals s) (fresh s) (transport s).

Definition set_presenceRef (p : option UserPresence) (s : state) : state :=
  Build_state (user s) (connection s) (channelsRef s) (heartbeatRef s) (reconnectTimeoutRef s)
    p (isConnectingRef s) (timeouts s) (intervals s) (fresh s) (transport s).

Definition set_isConnectingRef (b : bool) (s : state) : state :=
  Build_state (user s) (connection s) (channelsRef s) (heartbeatRef s) (reconnectTimeoutRef s)
    (presenceRef s) b (timeouts s) (intervals s) (fresh s) (transport s).

Definition set_timeouts (t : gmap nat Q) (s : state) : state :=
  Build_state (user s) (connection s) (channelsRef s) (heartbeatRef s) (reconnectTimeoutRef s)
    (presenceRef s) (isConnectingRef s) t (intervals s) (fresh s) (transport s).

Definition set_intervals (i : gset nat) (s : state) : state :=
  Build_state (user s) (connection s) (channelsRef s) (heartbeatRef s) (reconnectTimeoutRef s)
    (presenceRef s) (isConnectingRef s) (timeouts s) i (fresh s) (transport s).

Definition set_fresh (n : nat) (s : state) : state :=
  Build_state (user s) (connection s) (channelsRef s) (heartbeatRef s) (reconnectTimeoutRef s)
    (presenceRef s) (isConnectingRef s) (timeouts s) (intervals s) n (transport s).

(** A call on the transport is put in front of the log. *)
Definition call (e : transport_call) (s : state) : state :=
  Build_state (user s) (connection s) (channelsRef s) (heartbeatRef s) (reconnectTimeoutRef s)
    (presenceRef s) (isConnectingRef s) (timeouts s) (intervals s) (fresh s) (e :: transport s).

(** [setConnection(prev => ...)]. *)
Definition setConnection (f : RealtimeConnection -> RealtimeConnection) (s : state) : state :=
  set_connection (f (connection s)) s.

Definition clearTimeout (h : nat) (s : state) : state :=
  set_timeouts (delete h (timeouts s)) s.

Definition clearInterval (h : nat) (s : state) : state :=
  set_intervals (intervals s ∖ {[h]}) s.

(** The state of the first render: nothing subscribed, nothing pending. *)
Definition initial (u : option string) (conn_id : string) (now : Z) : state := {|
  user := u;
  connection := {| id := conn_id; conn_status := disconnected; last_ping := now;
                   reconnect_attempts := 0; subscriptions := []; conn_error := None |};
  channelsRef := ∅;
  heartbeatRef := None;
  reconnectTimeoutRef := None;
  presenceRef := None;
  isConnectingRef := false;
  timeouts := ∅;
  intervals := ∅;
  fresh := 1;
  transport := [] |}.

(** ** Callbacks of the hook *)

(** [updateConnectionStatus(status, error?)]: [...(error && { error })]
    keeps the previous error when none (or an empty one) is given. *)
Definition updateConnectionStatus (now : Z) (st : ConnectionStatus)
    (err : option string) (s : state) : state :=
  setConnection (fun prev => {|
    id := id prev;
    conn_status := st;
    last_ping := now;
    reconnect_attempts := reconnect_attempts prev;
    subscriptions := subscriptions prev;
    conn_error := match err with
                  | Some e => if decide (e = "") then conn_error prev else Some e
                  | None => conn_error prev
                  end |}) s.

Definition set_reconnect_attempts (n : nat) (prev : RealtimeConnection) : RealtimeConnection := {|
  id := id prev; conn_status := conn_status prev; last_ping := last_ping prev;
  reconnect_attempts := n;
  subscriptions := subscriptions prev; conn_error := conn_error prev |}.

Definition set_subscriptions (l : list string) (prev : RealtimeConnection) : RealtimeConnection := {|
  id := id prev; conn_status := conn_status prev; last_ping := last_ping prev;
  reconnect_attempts := reconnect_attempts prev;
  subscriptions := l; conn_error := conn_error prev |}.

(** [startHeartbeat]: the interval callback itself is not part of the model. *)
Definition startHeartbeat (s : state) : state :=
  let s1 := match heartbeatRef s with
            | Some h => clearInterval h s
            | None => s
            end in
  let h := fresh s1 in
  set_heartbeatRef (Some h) (set_intervals (intervals s1 ∪ {[h]}) (set_fresh (S h) s1)).

Definition stopHeartbeat (s : state) : state :=
  match heartbeatRef s with
  | Some h => set_heartbeatRef None (clearInterval h s)
  | None => s
  end.

(** [scheduleReconnect].  [seen] is the value of
    [connection.reconnect_attempts] in the closure that runs: the callback
    is rebuilt by [useCallback] when that counter changes, and reads the
    counter of the render that built it. *)
Definition scheduleReconnect (cfg : RealtimeConfig) (seen : nat) (now : Z) (random : Q)
    (s : state) : state :=
  let s1 := match reconnectTimeoutRef s with
            | Some h => clearTimeout h s
            | None => s
            end in
  if decide (maxReconnectAttempts cfg <= seen)%nat then
    updateConnectionStatus now error (Some "Max reconnection attempts reached") s1
  else
    let delay := getReconnectDelay cfg seen random in
    let s2 := updateConnectionStatus now reconnecting None s1 in
    let h := fresh s2 in
    set_reconnectTimeoutRef (Some h)
      (set_timeouts (<[h := delay]> (timeouts s2)) (set_fresh (S h) s2)).

(** [connect].  [probe] is the outcome of the connectivity query: [None]
    when it succeeds, [Some msg] when it comes back with an error.  The
    [await] is taken as atomic: no other callback runs before it settles. *)
Definition connect (cfg : RealtimeConfig) (seen : nat) (now : Z) (random : Q)
    (probe : option string) (s : state) : state :=
  match user s with
  | None => s
  | Some _ =>
    if isConnectingRef s then s
    else
      let s1 := updateConnectionStatus now connecting None (set_isConnectingRef true s) in
      let s2 :=
        match probe with
        | Some msg =>
            scheduleReconnect cfg seen now random
              (updateConnectionStatus now error
                 (Some ("Connection test failed: " +:+ msg)) s1)
        | None =>
            setConnection (set_reconnect_attempts 0)
              (startHeartbeat (updateConnectionStatus now connected None s1))
        end in
      set_isConnectingRef false s2
  end.

(** The callback given to [setTimeout] by [scheduleReconnect], run when the
    timer [h] fires: the counter goes up by one, then [connect()].  The
    [connect] called is the one of the render that set the timer, and
    [seen] is the counter of that render. *)
Definition retry_timer_fires (cfg : RealtimeConfig) (h : nat) (seen : nat) (now : Z)
    (random : Q) (probe : option string) (s : state) : state :=
  match timeouts s !! h with
  | None => s
  | Some _ =>
      connect cfg seen now random probe
        (setConnection (fun prev => set_reconnect_attempts (S (reconnect_attempts prev)) prev)
           (clearTimeout h s))
  end.

(** [disconnect]. *)
Definition disconnect (now : Z) (s : state) : state :=
  let s1 := stopHeartbeat s in
  let s2 := match reconnectTimeoutRef s1 with
            | Some h => set_reconnectTimeoutRef None (clearTimeout h s1)
            | None => s1
            end in
  let s3 := foldr (fun kv acc => call (ChannelUnsubscribed (channel kv.2)) acc) s2
              (map_to_list (channelsRef s2)) in
  let s4 := set_channelsRef ∅ s3 in
  let s5 := updateConnectionStatus now disconnected None s4 in
  setConnection (fun prev => set_reconnect_attempts 0 (set_subscriptions [] prev)) s5.

Definition set_callbacks (cbs : gmap string callback) (sub : ChannelSubscription)
    : ChannelSubscription :=
  {| channel := channel sub; callbacks := cbs; lastActivity := lastActivity sub |}.

(** The function that [subscribe] returns: either the empty function
    [() => {}] or the closure over [channelName] and [callbackId]. *)
Inductive unsubscribe_fn :=
  | Noop
  | Remove (channelName callbackId : string).

(** [subscribe(channelName, callback)].  [callbackId] is the identifier the
    call draws from [Date.now()] and [Math.random()]; [now] is [Date.now()].
    The wiring of the channel's event handlers is not part of the model. *)
Definition subscribe (channelName callbackId : string) (cb : callback) (now : Z)
    (s : state) : state * unsubscribe_fn :=
  match user s with
  | None => (s, Noop)
  | Some _ =>
    if decide (conn_status (connection s) = connected) then
      let '(subscription, s1) :=
        match channelsRef s !! channelName with
        | Some sub => (sub, s)
        | None =>
            let ch := {| handle := fresh s; topic := channelName |} in
            let sub := {| channel := ch; callbacks := ∅; lastActivity := now |} in
            (sub,
             setConnection (fun prev => set_subscriptions (subscriptions prev ++ [channelName]) prev)
               (set_channelsRef (<[channelName := sub]> (channelsRef s))
                  (call (ChannelCreated ch) (set_fresh (S (fresh s)) s))))
        end in
      (set_channelsRef
         (<[channelName := set_callbacks (<[callbackId := cb]> (callbacks subscription)) subscription]>
            (channelsRef s1)) s1,
       Remove channelName callbackId)
    else (s, Noop)
  end.

(** Tearing a channel down, as both unsubscribe paths do it. *)
Definition teardown (channelName : string) (sub : ChannelSubscription) (s : state) : state :=
  setConnection
    (fun prev => set_subscriptions
                   (filter (fun n => n ≠ channelName) (subscriptions prev)) prev)
    (set_channelsRef (delete channelName (channelsRef s))
       (call (ChannelUnsubscribed (channel sub)) s)).

(** Running the function returned by [subscribe]. *)
Definition run_unsubscribe_fn (f : unsubscribe_fn) (s : state) : state :=
  match f with
  | Noop => s
  | Remove channelName callbackId =>
      match channelsRef s !! channelName with
      | None => s
      | Some sub =>
          let cbs := delete callbackId (callbacks sub) in
          if decide (size cbs = 0%nat) then teardown channelName (set_callbacks cbs sub) s
          else set_channelsRef (<[channelName := set_callbacks cbs sub]> (channelsRef s)) s
      end
  end.

(** [unsubscribe(channelName)]: the hard unsubscribe. *)
Definition unsubscribe (channelName : string) (s : state) : state :=
  match channelsRef s !! channelName with
  | None => s
  | Some sub => teardown channelName sub s
  end.

(** The presence object that [updatePresence] builds: the defaults first,
    then the keys of the argument over them ([...presence] comes last). *)
Definition updatedPresence (uid : string) (now : Z) (presence : PartialPresence)
    : UserPresence := {|
  user_id := default uid (p_user_id presence);
  team_id := default "" (p_team_id presence);
  status := default online (p_status presence);
  last_seen := default now (p_last_seen presence);
  current_page := p_current_page presence;
  cursor_position := p_cursor_position presence;
  selection := p_selection presence;
  metadata := p_metadata presence |}.

(** [channel.track(p)] on every channel whose name includes "presence". *)
Definition track_all (p : UserPresence) (s : state) : state :=
  foldr (fun kv acc =>
           if includes "presence" kv.1 then call (Tracked (channel kv.2) p) acc else acc)
    s (map_to_list (channelsRef s)).

(** [updatePresence(presence)]. *)
Definition updatePresence (now : Z) (presence : PartialPresence) (s : state) : state :=
  match user s with
  | None => s
  | Some uid =>
      let p := updatedPresence uid now presence in
      track_all p (set_presenceRef (Some p) s)
  end.

(** What an [async] callback leaves its caller with. *)
Inductive promise (A : Type) :=
  | Resolved (a : A)
  | Rejected (message : string).
Arguments Resolved {A} a.
Arguments Rejected {A} message.

(** [sendMessage(channelName, event, payload)]: a missing channel is thrown. *)
Definition sendMessage (channelName event : string) (payload : json) (s : state)
    : promise state :=
  match channelsRef s !! channelName with
  | None => Rejected ("Channel " +:+ channelName +:+ " not found")
  | Some sub => Resolved (call (Sent (channel sub) event payload) s)
  end.

(** ** Runs on one channel name *)

(** A call of [subscribe] on the channel, with the identifier it draws, or a
    call of the function that the [subscribe] of that identifier returned. *)
Inductive channel_call :=
  | Subscribe (callbackId : string) (cb : callback) (now : Z)
  | Unsubscribe (callbackId : string).

Definition do_call (channelName : string) (c : channel_call) (s : state) : state :=
  match c with
  | Subscribe callbackId cb now => (subscribe channelName callbackId cb now s).1
  | Unsubscribe callbackId => run_unsubscribe_fn (Remove channelName callbackId) s
  end.

(** The states a run goes through, the first one included. *)
Fixpoint states (channelName : string) (calls : list channel_call) (s : state) : list state :=
  match calls with
  | [] => [s]
  | c :: rest => s :: states channelName rest (do_call channelName c s)
  end.

Definition run (channelName : string) (calls : list channel_call) (s : state) : state :=
  foldl (fun acc c => do_call channelName c acc) s calls.

(** Number of callbacks registered on a channel name. *)
Definition active_callbacks (channelName : string) (s : state) : nat :=
  match channelsRef s !! channelName with
  | Some sub => size (callbacks sub)
  | None => 0
  end.

(** Steps of a sequence of counts that go from [a] to [b]. *)
Fixpoint transitions (a b : nat) (counts : list nat) : nat :=
  match counts with
  | c :: (d :: _) as rest =>
      (if decide (c = a ∧ d = b) then 1 else 0) + transitions a b rest
  | _ => 0
  end.

Definition is_creation (channelName : string) (e : transport_call) : bool :=
  match e with
  | ChannelCreated ch => bool_decide (topic ch = channelName)
  | _ => false
  end.

Definition is_teardown (channelName : string) (e : transport_call) : bool :=
  match e with
  | ChannelUnsubscribed ch => bool_decide (topic ch = channelName)
  | _ => false
  end.

(** Physical channels created, and torn down, for a name so far. *)
Definition creations (channelName : string) (s : state) : nat :=
  length (List.filter (is_creation channelName) (transport s)).

Definition teardowns (channelName : string) (s : state) : nat :=
  length (List.filter (is_teardown channelName) (transport s)).

(** Physical channels of a name that exist: created and not torn down. *)
Definition live_channels (channelName : string) (s : state) : nat :=
  creations channelName s - teardowns channelName s.

(** What the map and the log agree on for a channel name: an entry holds a
    channel of that topic and at least one callback, and the name has one
    more creation than teardowns exactly when it has an entry. *)
Definition channel_consistent (channelName : string) (s : state) : Prop :=
  match channelsRef s !! channelName with
  | Some sub =>
      topic (channel sub) = channelName ∧ size (callbacks sub) ≠ 0%nat ∧
      creations channelName s = S (teardowns channelName s)
  | None => creations channelName s = teardowns channelName s
  end.

(** ** Runs over the whole hook *)

(** The callback registered under an identifier on a channel name, if any. *)
Definition registered (channelName callbackId : string) (s : state) : option callback :=
  channelsRef s !! channelName ≫= (fun sub => callbacks sub !! callbackId).

(** What can happen to the hook: a call of one of its functions, of a
    function that [subscribe] returned, or a retry timer that fires. *)
Inductive action :=
  | DoSubscribe (channelName callbackId : string) (cb : callback) (now : Z)
  | DoUnsubscribeFn (f : unsubscribe_fn)
  | DoUnsubscribe (channelName : string)
  | DoUpdatePresence (now : Z) (presence : PartialPresence)
  | DoSendMessage (channelName event : string) (payload : json)
  | DoConnect (cfg : RealtimeConfig) (seen : nat) (now : Z) (random : Q)
      (probe : option string)
  | DoRetryTimer (cfg : RealtimeConfig) (h seen : nat) (now : Z) (random : Q)
      (probe : option string)
  | DoDisconnect (now : Z).

Definition perform (a : action) (s : state) : state :=
  match a with
  | DoSubscribe channelName callbackId cb now =>
      (subscribe channelName callbackId cb now s).1
  | DoUnsubscribeFn f => run_unsubscribe_fn f s
  | DoUnsubscribe channelName => unsubscribe channelName s
  | DoUpdatePresence now presence => updatePresence now presence s
  | DoSendMessage channelName event payload =>
      match sendMessage channelName event payload s with
      | Resolved s' => s'
      | Rejected _ => s
      end
  | DoConnect cfg seen now random probe => connect cfg seen now random probe s
  | DoRetryTimer cfg h seen now random probe =>
      retry_timer_fires cfg h seen now random probe s
  | DoDisconnect now => disconnect now s
  end.

Definition perform_all (l : list action) (s : state) : state :=
  foldl (fun acc a => perform a acc) s l.

(** Whether an action is a [subscribe] on the channel that draws the
    identifier. *)
Definition draws (channelName callbackId : string) (a : action) : bool :=
  match a with
  | DoSubscribe c k _ _ => bool_decide (c = channelName ∧ k = callbackId)
  | _ => false
  end.


(** An identifier is released on a channel name when the entry of the
    name, if there is one, does not hold it and holds some callback. *)
Definition released (channelName callbackId : string) (s : state) : Prop :=
  match channelsRef s !! channelName with
  | Some sub => callbacks sub !! callbackId = None ∧ size (callbacks sub) ≠ 0%nat
  | None => True
  end.

(** ** Consecutive connection failures *)

(** A [connect()] whose probe fails, called from the current render: its
    [scheduleReconnect] reads the counter of the state. *)
Definition first_failure (cfg : RealtimeConfig) (now : Z) (random : Q) (msg : string)
    (s : state) : state :=
  connect cfg (reconnect_attempts (connection s)) now random (Some msg) s.

(** The pending retry timer fires and its [connect()] fails as well.  The
    callback given to [setTimeout] calls the [connect] of the render whose
    [scheduleReconnect] set the timer, and that [connect] calls the same
    [scheduleReconnect] again: it reads [seen], the counter of that render,
    not the counter that the timer has just raised. *)
Definition retry_failure (cfg : RealtimeConfig) (seen : nat) (now : Z) (random : Q)
    (msg : string) (s : state) : state :=
  match reconnectTimeoutRef s with
  | Some h => retry_timer_fires cfg h seen now random (Some msg) s
  | None => s
  end.

(** [n] failures in a row: a first [connect()] from the current render,
    then [n - 1] retries, each started by the timer that the failure before
    it set.  All of them run the [scheduleReconnect] of the first one, which
    reads the counter that the run started with. *)
Definition consecutive_failures (cfg : RealtimeConfig) (now : Z) (random : Q) (msg : string)
    (n : nat) (s : state) : state :=
  match n with
  | O => s
  | S m =>
      Nat.iter m (retry_failure cfg (reconnect_attempts (connection s)) now random msg)
        (first_failure cfg now random msg s)
  end.


Definition set_last_ping (now : Z) (prev : RealtimeConnection) : RealtimeConnection := {|
  id := id prev; conn_status := conn_status prev; last_ping := now;
  reconnect_attempts := reconnect_attempts prev;
  subscriptions := subscriptions prev; conn_error := conn_error prev |}.

(** ** Sample states *)

(** A session of user-1 before its first [connect]. *)
Definition new_session : state := initial (Some "user-1") "conn_0" 0.

(** The session after a first successful [connect]. *)
Definition connected_session : state :=
  connect DEFAULT_CONFIG 0 0 0 None new_session.

(** ** The heartbeat and runs with it *)

Definition set_last_seen (now : Z) (p : UserPresence) : UserPresence := {|
  user_id := user_id p; team_id := team_id p; status := status p;
  last_seen := now;
  current_page := current_page p; cursor_position := cursor_position p;
  selection := selection p; metadata := metadata p |}.

(** The callback given to [setInterval] by [startHeartbeat].  [seen] is the
    [connection.status] of the render that built [startHeartbeat]. *)
Definition heartbeat_tick (seen : ConnectionStatus) (now : Z) (s : state) : state :=
  if decide (seen = connected) then
    match presenceRef s with
    | Some p => setConnection (set_last_ping now) (track_all (set_last_seen now p) s)
    | None => s
    end
  else s.

(** An action on the hook, or a tick of the running heartbeat interval. *)
Inductive event :=
  | Call (a : action)
  | Heartbeat (h : nat) (seen : ConnectionStatus) (now : Z).

Definition happen (e : event) (s : state) : state :=
  match e with
  | Call a => perform a s
  | Heartbeat h seen now =>
      if decide (h ∈ intervals s) then heartbeat_tick seen now s else s
  end.

Definition history (l : list event) (s : state) : state :=
  foldl (fun acc e => happen e acc) s l.


(** Every pending retry timer and every running interval is the one its
    ref holds. *)
Definition timers_tracked (s : state) : Prop :=
  (∀ h, is_Some (timeouts s !! h) -> reconnectTimeoutRef s = Some h) ∧
  (∀ h, h ∈ intervals s -> heartbeatRef s = Some h).

(** The subscription list of the connection names the channels of the map,
    each once. *)
Definition subscriptions_mirror (s : state) : Prop :=
  NoDup (subscriptions (connection s)) ∧
  ∀ c, c ∈ subscriptions (connection s) ↔ is_Some (channelsRef s !! c).

(** The calls that [track_all] makes: one per entry whose name includes
    "presence". *)
Definition presence_calls (p : UserPresence) (s : state) : list transport_call :=
  (fun kv => Tracked (channel kv.2) p) <$>
    filter (fun kv => includes "presence" kv.1 = true) (map_to_list (channelsRef s)).

End Realtime.

Module TeamCollaboration.

(** ** Data model (types/team.ts and the migrations) *)

Inductive TeamRole := owner | admin | member | viewer.

#[global] Instance TeamRole_eq_dec : EqDecision TeamRole.
Proof. solve_decision. Defined.

Inductive ActivityAction :=
  | member_joined | member_left | member_invited | member_removed
  | member_role_updated | property_created | property_updated
  | property_deleted | evaluation_created | evaluation_updated
  | evaluation_completed | media_uploaded | team_settings_updated.

Inductive ResourceType :=
  | rt_property | rt_evaluation | rt_media | rt_team | rt_member.

(** [TeamSettings] and [Partial<TeamSettings>]: a JSON object. *)
Definition TeamSettings := list (string * json).

Record Team := {
  team_id : string;
  team_name : string;
  max_members : Z;
  team_is_active : bool;
  settings : TeamSettings }.

Record TeamMember := {
  member_id : string;
  member_team_id : string;
  member_user_id : string;
  role : TeamRole;
  joined_at : Z;
  is_active : bool }.

Record TeamInvite := {
  invite_id : string;
  invite_team_id : string;
  invite_code : string;
  created_by : string;
  expires_at : Z;
  max_uses : option Z;            (* [max_uses?: number] *)
  current_uses : Z;
  invite_is_active : bool }.

Record TeamActivity := {
  activity_team_id : string;
  activity_user_id : string;
  action : ActivityAction;
  resource_type : ResourceType;
  resource_id : string;
  metadata : list (string * json) }.

(** The relations of the data store, as rows the caller may read. *)
Record store := {
  teams : list Team;
  team_members : list TeamMember;
  team_invites : list TeamInvite;
  team_activities : list TeamActivity }.

(** What a failed store call throws into the [catch] block. *)
Inductive thrown :=
  | ErrorObject (message : string)
  | OtherValue.

(** [err instanceof Error ? err.message : fallback]. *)
Definition message_or (fallback : string) (e : thrown) : string :=
  match e with
  | ErrorObject m => m
  | OtherValue => fallback
  end.

(** How the data store answers the writes of one call: an error for the
    write it refuses, the identifier and join time it gives a new row. *)
Record answers := {
  member_insert_error : option thrown;
  invite_update_refused : bool;
  settings_update_error : option thrown;
  activity_insert_refused : bool;
  new_member_id : string;
  new_joined_at : Z }.

(** [.single()]: the row when exactly one matches, an error otherwise. *)
Definition single {A : Type} (rows : list A) : option A :=
  match rows with
  | [r] => Some r
  | _ => None
  end.

(** [String.prototype.toUpperCase] on strings of ASCII characters: the
    letters a to z are mapped to A to Z and every other character is left
    as it is.  The source maps letters outside ASCII as well, which this
    definition does not do: what rests on the value it computes is stated
    for [ascii_only] strings. *)
Definition upper_ascii (c : Ascii.ascii) : Ascii.ascii :=
  let n := Ascii.nat_of_ascii c in
  if (97 <=? n)%nat && (n <=? 122)%nat then Ascii.ascii_of_nat (n - 32) else c.

Fixpoint toUpperCase (s : string) : string :=
  match s with
  | EmptyString => EmptyString
  | String c rest => String (upper_ascii c) (toUpperCase rest)
  end.

Definition is_ascii (c : Ascii.ascii) : bool := (Ascii.nat_of_ascii c <? 128)%nat.

(** The strings all of whose characters are ASCII characters. *)
Fixpoint ascii_only (s : string) : bool :=
  match s with
  | EmptyString => true
  | String c rest => is_ascii c && ascii_only rest
  end.

Definition set_team_members (l : list TeamMember) (db : store) : store :=
  {| teams := teams db; team_members := l; team_invites := team_invites db;
     team_activities := team_activities db |}.

Definition set_team_invites (l : list TeamInvite) (db : store) : store :=
  {| teams := teams db; team_members := team_members db; team_invites := l;
     team_activities := team_activities db |}.

Definition set_team_activities (l : list TeamActivity) (db : store) : store :=
  {| teams := teams db; team_members := team_members db; team_invites := team_invites db;
     team_activities := l |}.

Definition set_teams (l : list Team) (db : store) : store :=
  {| teams := l; team_members := team_members db; team_invites := team_invites db;
     team_activities := team_activities db |}.

Definition set_current_uses (n : Z) (i : TeamInvite) : TeamInvite :=
  {| invite_id := invite_id i; invite_team_id := invite_team_id i;
     invite_code := invite_code i; created_by := created_by i;
     expires_at := expires_at i; max_uses := max_uses i; current_uses := n;
     invite_is_active := invite_is_active i |}.

Definition set_settings (v : TeamSettings) (t : Team) : Team :=
  {| team_id := team_id t; team_name := team_name t; max_members := max_members t;
     team_is_active := team_is_active t; settings := v |}.

(** ** markActivity *)

(** [markActivity(action, resourceType, resourceId, metadata)]: a refused
    insert is logged and swallowed.  [teamId] is the hook's argument. *)
Definition markActivity (user : option string) (teamId : string) (a : answers)
    (act : ActivityAction) (rt : ResourceType) (rid : string)
    (meta : list (string * json)) (db : store) : store :=
  match user with
  | None => db
  | Some uid =>
      if decide (teamId = "") then db
      else if activity_insert_refused a then db
      else set_team_activities
             (team_activities db ++
                [{| activity_team_id := teamId; activity_user_id := uid; action := act;
                    resource_type := rt; resource_id := rid; metadata := meta |}]) db
  end.

(** ** joinTeam *)

Record JoinTeamResponse := {
  success : bool;
  team : option Team;
  member_row : option TeamMember;    (* [member] *)
  error : option string }.

(** The [return] statement a call of [joinTeam] leaves by. *)
Inductive join_exit :=
  | AuthenticationRequired
  | InvalidCode
  | Expired
  | MaximumUses
  | AlreadyMember
  | MemberLimit
  | Caught (e : thrown)
  | Joined (t : option Team) (m : TeamMember).

Definition failure (msg : string) : JoinTeamResponse :=
  {| success := false; team := None; member_row := None; error := Some msg |}.

Definition response (e : join_exit) : JoinTeamResponse :=
  match e with
  | AuthenticationRequired => failure "Authentication required"
  | InvalidCode => failure "Invalid or expired invite code"
  | Expired => failure "Invite code has expired"
  | MaximumUses => failure "Invite code has reached maximum uses"
  | AlreadyMember => failure "You are already a member of this team"
  | MemberLimit => failure "Team has reached maximum member limit"
  | Caught e => failure (message_or "Failed to join team" e)
  | Joined t m => {| success := true; team := t; member_row := Some m; error := None |}
  end.

(** The invite query: by upper-cased code, active rows only, [.single()]. *)
Definition find_invite (inviteCode : string) (db : store) : option TeamInvite :=
  single (filter (fun i => invite_code i = toUpperCase inviteCode ∧ invite_is_active i = true)
            (team_invites db)).

(** The team row embedded in the invite row by the [team:teams] join. *)
Definition invite_team (i : TeamInvite) (db : store) : option Team :=
  head (filter (fun t => team_id t = invite_team_id i) (teams db)).

(** The membership query of [joinTeam]: by team and user, [.single()]. *)
Definition existingMember (i : TeamInvite) (uid : string) (db : store) : option TeamMember :=
  single (filter (fun m => member_team_id m = invite_team_id i ∧ member_user_id m = uid)
            (team_members db)).

(** The count query: active rows of the team. *)
Definition memberCount (i : TeamInvite) (db : store) : Z :=
  Z.of_nat (length (filter (fun m => member_team_id m = invite_team_id i ∧ is_active m = true)
                      (team_members db))).

(** The usage test: [inviteData.max_uses && current_uses >= max_uses]. *)
Definition uses_exhausted (i : TeamInvite) : bool :=
  match max_uses i with
  | Some m => bool_decide (m ≠ 0%Z) && bool_decide (current_uses i >= m)%Z
  | None => false
  end.

(** [joinTeam(inviteCode)], with the exit it takes and the store it leaves. *)
Definition joinTeam_exit (user : option string) (teamId : string) (now : Z) (a : answers)
    (inviteCode : string) (db : store) : join_exit * store :=
  match user with
  | None => (AuthenticationRequired, db)
  | Some uid =>
    match find_invite inviteCode db with
    | None => (InvalidCode, db)
    | Some inviteData =>
      if decide (expires_at inviteData < now)%Z then (Expired, db)
      else if uses_exhausted inviteData then (MaximumUses, db)
      else match existingMember inviteData uid db with
      | Some _ => (AlreadyMember, db)
      | None =>
        let count := memberCount inviteData db in
        let full :=
          if decide (count = 0%Z) then Some false
          else match invite_team inviteData db with
               | Some t => Some (bool_decide (count >= max_members t)%Z)
               | None => None        (* [inviteData.team] is null: a TypeError *)
               end in
        match full with
        | None => (Caught (ErrorObject "Cannot read properties of null (reading 'max_members')"), db)
        | Some true => (MemberLimit, db)
        | Some false =>
          match member_insert_error a with
          | Some e => (Caught e, db)
          | None =>
            let memberData := {| member_id := new_member_id a;
                                 member_team_id := invite_team_id inviteData;
                                 member_user_id := uid; role := member;
                                 joined_at := new_joined_at a; is_active := true |} in
            let db1 := set_team_members (team_members db ++ [memberData]) db in
            let db2 :=
              if invite_update_refused a then db1
              else set_team_invites
                     (map (fun i => if decide (invite_id i = invite_id inviteData)
                                    then set_current_uses (current_uses inviteData + 1) i
                                    else i) (team_invites db1)) db1 in
            let db3 := markActivity user teamId a member_joined rt_team
                         (invite_team_id inviteData)
                         [("invite_code", JStr inviteCode)] db2 in
            (Joined (invite_team inviteData db) memberData, db3)
          end
        end
      end
    end
  end.

Definition joinTeam (user : option string) (teamId : string) (now : Z) (a : answers)
    (inviteCode : string) (db : store) : JoinTeamResponse * store :=
  let '(e, db') := joinTeam_exit user teamId now a inviteCode db in (response e, db').

(** ** updateTeamSettings *)

(** The caller's own membership row: by team and user, [.single()]. *)
Definition currentMember (teamId uid : string) (db : store) : option TeamMember :=
  single (filter (fun m => member_team_id m = teamId ∧ member_user_id m = uid)
            (team_members db)).

(** Result of a boolean operation of the hook: the returned flag, the
    message given to [setError] if any, and the store afterwards. *)
Record outcome := {
  returned : bool;
  set_error : option string;
  after : store }.

(** [updateTeamSettings(settings)]. *)
Definition updateTeamSettings (user : option string) (teamId : string) (a : answers)
    (new_settings : TeamSettings) (db : store) : outcome :=
  match user with
  | None => {| returned := false; set_error := None; after := db |}
  | Some uid =>
    if decide (teamId = "") then {| returned := false; set_error := None; after := db |}
    else
      match currentMember teamId uid db with
      | Some m =>
        if decide (role m = owner ∨ role m = admin) then
          match settings_update_error a with
          | Some e =>
              {| returned := false;
                 set_error := Some (message_or "Failed to update team settings" e);
                 after := db |}
          | None =>
              let db1 := set_teams
                           (map (fun t => if decide (team_id t = teamId)
                                          then set_settings new_settings t else t)
                              (teams db)) db in
              let db2 := markActivity user teamId a team_settings_updated rt_team teamId
                           [("updated_settings", JArr (JStr <$> object_keys new_settings))]
                           db1 in
              {| returned := true; set_error := None; after := db2 |}
          end
        else {| returned := false;
                set_error := Some "Insufficient permissions to update team settings";
                after := db |}
      | None => {| returned := false;
                   set_error := Some "Insufficient permissions to update team settings";
                   after := db |}
      end
  end.

(** The value of a key in a JSON object. *)
Definition lookup_key (k : string) (o : list (string * json)) : option json :=
  (list_find (fun kv => kv.1 = k) o) ≫= (fun r => Some r.2.2).

(** The settings a merge would store: the old object with the keys of the
    partial written over it, [{ ...old, ...partial }].  This is the reading
    of the specification, kept apart from [updateTeamSettings]. *)
Definition spec_merged_settings (old partial : TeamSettings) : TeamSettings :=
  map (fun kv => (kv.1, default kv.2 (lookup_key kv.1 partial))) old ++
  filter (fun kv => lookup_key kv.1 old = None) partial.

(** ** Readings of the specification and sample data *)

(** The caller has an active membership row in the team. *)
Definition spec_active_member (uid tid : string) (db : store) : Prop :=
  ∃ m, m ∈ team_members db ∧ member_team_id m = tid ∧ member_user_id m = uid ∧
       is_active m = true.

Definition default_settings : TeamSettings :=
  [("notifications", JObj [("email", JBool true); ("push", JBool true);
                           ("realtime", JBool true)]);
   ("permissions", JObj [("invite_members", JArr [JStr "owner"; JStr "admin"])]);
   ("collaboration", JObj [("show_cursors", JBool true);
                           ("auto_save_interval", JNum 30)])].

Definition sample_team : Team := {|
  team_id := "t1"; team_name := "Home search"; max_members := 3;
  team_is_active := true; settings := default_settings |}.

Definition sample_owner : TeamMember := {|
  member_id := "m1"; member_team_id := "t1"; member_user_id := "user-1";
  role := owner; joined_at := 0; is_active := true |}.

(** user-2 was a member once and has been removed (a soft delete). *)
Definition removed_member : TeamMember := {|
  member_id := "m2"; member_team_id := "t1"; member_user_id := "user-2";
  role := member; joined_at := 10; is_active := false |}.

(** An invite for one use, used once, that runs out at time 1000. *)
Definition used_invite : TeamInvite := {|
  invite_id := "i1"; invite_team_id := "t1"; invite_code := "ABCD1234";
  created_by := "user-1"; expires_at := 1000; max_uses := Some 1%Z;
  current_uses := 1; invite_is_active := true |}.

(** An invite for ten uses, unused, that runs out at time 1000. *)
Definition open_invite : TeamInvite := {|
  invite_id := "i2"; invite_team_id := "t1"; invite_code := "WXYZ5678";
  created_by := "user-1"; expires_at := 1000; max_uses := Some 10%Z;
  current_uses := 0; invite_is_active := true |}.

(** An invite whose [max_uses] is 0. *)
Definition zero_invite : TeamInvite := {|
  invite_id := "i3"; invite_team_id := "t1"; invite_code := "ZERO0000";
  created_by := "user-1"; expires_at := 1000; max_uses := Some 0%Z;
  current_uses := 0; invite_is_active := true |}.

Definition sample_store : store := {|
  teams := [sample_team];
  team_members := [sample_owner; removed_member];
  team_invites := [used_invite; open_invite; zero_invite];
  team_activities := [] |}.

(** A data store that accepts every write. *)
Definition accepting : answers := {|
  member_insert_error := None; invite_update_refused := false;
  settings_update_error := None; activity_insert_refused := false;
  new_member_id := "m9"; new_joined_at := 500 |}.

(** ** The other operations of the hook *)

Record UserProfile := {
  profile_id : string; email : string; full_name : string;
  avatar_url : option string; timezone : string }.

(** An element of the [teamMembers] state: a row with its joined profile. *)
Record LocalMember := {
  row : TeamMember;
  user_profile : option UserProfile }.

(** How the data store answers the writes of the operations below. *)
Record write_answers := {
  member_update_error : option thrown;
  invite_insert_error : option thrown;
  new_invite_id : string }.

Definition set_is_active (b : bool) (m : TeamMember) : TeamMember :=
  {| member_id := member_id m; member_team_id := member_team_id m;
     member_user_id := member_user_id m; role := role m; joined_at := joined_at m;
     is_active := b |}.

Definition set_role (r : TeamRole) (m : TeamMember) : TeamMember :=
  {| member_id := member_id m; member_team_id := member_team_id m;
     member_user_id := member_user_id m; role := r; joined_at := joined_at m;
     is_active := is_active m |}.

Definition role_name (r : TeamRole) : string :=
  match r with
  | owner => "owner" | admin => "admin" | member => "member" | viewer => "viewer"
  end.

Record TeamInviteResponse := {
  invite_success : bool;
  response_invite_code : option string;
  invite_url : option string;
  response_expires_at : option Z;
  invite_error : option string }.

Definition invite_failure (msg : string) : TeamInviteResponse :=
  {| invite_success := false; response_invite_code := None; invite_url := None;
     response_expires_at := None; invite_error := Some msg |}.

(** [email ? a : b]: an absent or empty address is falsy. *)
Definition email_given (e : option string) : bool :=
  match e with
  | Some addr => bool_decide (addr ≠ "")
  | None => false
  end.

(** [inviteTeamMember(email?)].  [inviteCode] is what [generateInviteCode(8)]
    returns, [expiresAt] the date that [setHours(getHours() + 24)] moves
    [new Date()] to, [origin] is [window.location.origin]. *)
Definition inviteTeamMember (user : option string) (teamId : string)
    (inviteCode : string) (expiresAt : Z) (origin : string)
    (a : answers) (w : write_answers) (mail : option string) (db : store)
    : TeamInviteResponse * store :=
  match user with
  | None => (invite_failure "Authentication required", db)
  | Some uid =>
    if decide (teamId = "") then (invite_failure "Authentication required", db)
    else
      match currentMember teamId uid db with
      | Some m =>
        if decide (role m = owner ∨ role m = admin) then
          match invite_insert_error w with
          | Some e => (invite_failure (message_or "Failed to create invite" e), db)
          | None =>
            let inviteData := {| invite_id := new_invite_id w; invite_team_id := teamId;
                                 invite_code := inviteCode; created_by := uid;
                                 expires_at := expiresAt;
                                 max_uses := Some (if email_given mail then 1 else 10)%Z;
                                 current_uses := 0; invite_is_active := true |} in
            let db1 := set_team_invites (team_invites db ++ [inviteData]) db in
            let db2 := markActivity user teamId a member_invited rt_team teamId
                         [("invite_code", JStr inviteCode);
                          ("email", match mail with
                                    | Some addr => if decide (addr = "") then JNull
                                                   else JStr addr
                                    | None => JNull
                                    end)] db1 in
            ({| invite_success := true; response_invite_code := Some inviteCode;
                invite_url := Some (origin +:+ "/join/" +:+ inviteCode);
                response_expires_at := Some expiresAt; invite_error := None |}, db2)
          end
        else (invite_failure "Insufficient permissions to invite members", db)
      | None => (invite_failure "Insufficient permissions to invite members", db)
      end
  end.

(** Result of an operation that also sets the [teamMembers] state. *)
Record member_outcome := {
  m_returned : bool;
  m_set_error : option string;
  m_after : store;
  m_teamMembers : list LocalMember }.

Definition refused (msg : option string) (db : store) (local : list LocalMember)
    : member_outcome :=
  {| m_returned := false; m_set_error := msg; m_after := db; m_teamMembers := local |}.

(** [removeTeamMember(memberId)]. *)
Definition removeTeamMember (user : option string) (teamId : string)
    (a : answers) (w : write_answers) (memberId : string)
    (local : list LocalMember) (db : store) : member_outcome :=
  match user with
  | None => refused None db local
  | Some uid =>
    if decide (teamId = "") then refused None db local
    else
      match currentMember teamId uid db with
      | None => refused (Some "Insufficient permissions to remove members") db local
      | Some cm =>
        if decide (role cm = owner ∨ role cm = admin) then
          match single (filter (fun m => member_id m = memberId) (team_members db)) with
          | None => refused (Some "Member not found") db local
          | Some memberToRemove =>
            if decide (role memberToRemove = owner)
            then refused (Some "Cannot remove team owner") db local
            else
              match member_update_error w with
              | Some e => refused (Some (message_or "Failed to remove member" e)) db local
              | None =>
                let db1 := set_team_members
                             (map (fun m => if decide (member_id m = memberId)
                                            then set_is_active false m else m)
                                (team_members db)) db in
                let local1 := filter (fun lm => member_id (row lm) ≠ memberId) local in
                let db2 := markActivity user teamId a member_removed rt_member memberId
                             [("removed_user_id", JStr (member_user_id memberToRemove))]
                             db1 in
                {| m_returned := true; m_set_error := None; m_after := db2;
                   m_teamMembers := local1 |}
              end
          end
        else refused (Some "Insufficient permissions to remove members") db local
      end
  end.

(** [updateMemberRole(memberId, role)]. *)
Definition updateMemberRole (user : option string) (teamId : string)
    (a : answers) (w : write_answers) (memberId : string) (r : TeamRole)
    (local : list LocalMember) (db : store) : member_outcome :=
  match user with
  | None => refused None db local
  | Some uid =>
    if decide (teamId = "") then refused None db local
    else
      match currentMember teamId uid db with
      | None => refused (Some "Only team owners can change member roles") db local
      | Some cm =>
        if decide (role cm = owner) then
          match member_update_error w with
          | Some e => refused (Some (message_or "Failed to update member role" e)) db local
          | None =>
            let db1 := set_team_members
                         (map (fun m => if decide (member_id m = memberId)
                                        then set_role r m else m)
                            (team_members db)) db in
            let local1 := map (fun lm => if decide (member_id (row lm) = memberId)
                                         then {| row := set_role r (row lm);
                                                 user_profile := user_profile lm |}
                                         else lm) local in
            let db2 := markActivity user teamId a member_role_updated rt_member memberId
                         [("new_role", JStr (role_name r))] db1 in
            {| m_returned := true; m_set_error := None; m_after := db2;
               m_teamMembers := local1 |}
          end
        else refused (Some "Only team owners can change member roles") db local
      end
  end.

(** ** Realtime handlers *)

(** A change of the [team_members] relation as the channel delivers it:
    the event type with the new record, or the old one for a delete. *)
Inductive member_change :=
  | MemberInserted (newRecord : TeamMember)
  | MemberUpdated (newRecord : TeamMember)
  | MemberDeleted (oldRecord : TeamMember).

(** [handleTeamMemberUpdate(payload)]: the new [teamMembers] and whether
    [loadTeamMembers()] is called. *)
Definition handleTeamMemberUpdate (teamId : string) (payload : member_change)
    (prev : list LocalMember) : list LocalMember * bool :=
  match payload with
  | MemberInserted newRecord =>
      (prev, bool_decide (member_team_id newRecord = teamId))
  | MemberUpdated newRecord =>
      if decide (member_team_id newRecord = teamId) then
        (map (fun lm => if decide (member_id (row lm) = member_id newRecord)
                        then {| row := newRecord; user_profile := user_profile lm |}
                        else lm) prev, false)
      else (prev, false)
  | MemberDeleted oldRecord =>
      (filter (fun lm => member_id (row lm) ≠ member_id oldRecord) prev, false)
  end.

(** [Array.prototype.slice(0, end)]: a negative [end] counts from the end
    of the array. *)
Definition slice0 {A : Type} (finish : Z) (l : list A) : list A :=
  if (finish <? 0)%Z
  then take (Z.to_nat (Z.max (Z.of_nat (length l) + finish) 0)) l
  else take (Z.to_nat finish) l.

Inductive event_type := INSERT | UPDATE | DELETE.

(** [handleActivityUpdate(payload)], with the configured [activityLimit]. *)
Definition handleActivityUpdate (teamId : string) (activityLimit : Z)
    (eventType : event_type) (newRecord : TeamActivity) (prev : list TeamActivity)
    : list TeamActivity :=
  match eventType with
  | INSERT =>
      if decide (activity_team_id newRecord = teamId)
      then newRecord :: slice0 (activityLimit - 1) prev
      else prev
  | _ => prev
  end.

(** ** The settings form (TeamSettings component) *)

(** [updateLocalSettings(updates)]: [{ ...localSettings, ...updates }]. *)
Definition updateLocalSettings (localSettings updates : TeamSettings) : TeamSettings :=
  spec_merged_settings localSettings updates.

(** [handleSave]: [onUpdate(localSettings)] unless nothing has changed. *)
Definition handleSave (hasChanges : bool) (user : option string) (teamId : string)
    (a : answers) (localSettings : TeamSettings) (db : store) : option outcome :=
  if hasChanges then Some (updateTeamSettings user teamId a localSettings db) else None.

(** ** More sample data *)

(** A data store that accepts the writes of the other operations. *)
Definition accepting_writes : write_answers := {|
  member_update_error := None; invite_insert_error := None; new_invite_id := "i9" |}.

(** [sample_store] after user-1 has invited an address by mail. *)
Definition store_with_mail_invite : store :=
  (inviteTeamMember (Some "user-1") "t1" "MAIL0001" 1000 "https://app.example"
     accepting accepting_writes (Some "friend@example.org") sample_store).2.

End TeamCollaboration.

(** The presence badge of the member list (TeamMemberList component). *)
Module MemberList.
Import Realtime.

(** What the badge ends in: a fixed text, or "Last seen" with the time that
    [formatRelativeTime] renders. *)
Inductive badge_label :=
  | Text (s : string)
  | LastSeen (at_time : Z).

Record badge := {
  badge_status : PresenceStatus;
  color : string;
  label : badge_label }.

(** [getPresenceStatus(presence)]; [now] is [new Date()]. *)
Definition getPresenceStatus (now : Z) (presence : option UserPresence) : badge :=
  match presence with
  | None => {| badge_status := offline; color := "bg-gray-400"; label := Text "Offline" |}
  | Some p =>
      let diffMinutes := (inject_Z (now - last_seen p) / inject_Z (1000 * 60))%Q in
      if Qlt_le_dec diffMinutes 5 then
        match status p with
        | online => {| badge_status := online; color := "bg-green-500"; label := Text "Online" |}
        | busy => {| badge_status := busy; color := "bg-red-500"; label := Text "Busy" |}
        | away => {| badge_status := away; color := "bg-yellow-500"; label := Text "Away" |}
        | offline => {| badge_status := offline; color := "bg-gray-400"; label := Text "Offline" |}
        end
      else {| badge_status := offline; color := "bg-gray-400";
              label := LastSeen (last_seen p) |}
  end.

End MemberList.

(** The subscription effect of [useTeamCollaboration], over the state of
    the connection manager. *)
Module TeamChannels.
Import Realtime.

(** [unsubscribeFunctionsRef.current.forEach(unsubscribe => unsubscribe())]. *)
Definition run_all (fs : list unsubscribe_fn) (s : state) : state :=
  foldl (fun acc f => run_unsubscribe_fn f acc) s fs.

(** The argument of the [updatePresence] call of the effect. *)
Definition team_presence (teamId pathname : string) : PartialPresence := {|
  p_user_id := None; p_team_id := Some teamId; p_status := Some online;
  p_last_seen := None; p_current_page := Some pathname;
  p_cursor_position := None; p_selection := None; p_metadata := None |}.

(** The effect that initialises the subscriptions.  [isConnected] is the
    flag of the render, [unsubs] the content of [unsubscribeFunctionsRef],
    [k1], [k2], [k3] the identifiers the three [subscribe] calls draw and
    [h1], [h2], [h3] the presence, member and activity handlers.  The
    result is the state and the new content of the ref, which the cleanup
    of the effect runs with [run_all]. *)
Definition subscription_effect (teamId : string) (autoLoadActivities isConnected : bool)
    (k1 k2 k3 : string) (h1 h2 h3 : callback) (now : Z) (pathname : string)
    (unsubs : list unsubscribe_fn) (s : state) : state * list unsubscribe_fn :=
  if decide (teamId = "") then (s, unsubs)
  else if negb isConnected then (s, unsubs)
  else
    let s0 := run_all unsubs s in
    let r1 := subscribe ("team_presence_" +:+ teamId) k1 h1 now s0 in
    let r2 := subscribe ("team_members_" +:+ teamId) k2 h2 now r1.1 in
    let r3 := if autoLoadActivities
              then let r := subscribe ("team_activities_" +:+ teamId) k3 h3 now r2.1 in
                   (r.1, [r1.2; r2.2; r.2])
              else (r2.1, [r1.2; r2.2]) in
    let s4 := match user r3.1 with
              | Some _ => updatePresence now (team_presence teamId pathname) r3.1
              | None => r3.1
              end in
    (s4, r3.2).

End TeamChannels.

(** * Properties of the connection manager *)

Module RealtimeProps.
Import Realtime.

(** ** Reconnect delay *)

Lemma pow2_mono (a b : nat) : (a <= b)%nat -> (pow2 a <= pow2 b)%Q.
Proof.
  intros Hab. unfold pow2. rewrite <- Zle_Qle.
  apply Z.pow_le_mono_r; lia.
Qed.

Lemma backoff_mono (cfg : RealtimeConfig) (a b : nat) :
  (0 <= reconnectInterval cfg)%Q -> (a <= b)%nat ->
  (backoff cfg a <= backoff cfg b)%Q.
Proof.
  intros Hbase Hab. unfold backoff.
  apply Q.min_le_compat_r.
  rewrite !(Qmult_comm (reconnectInterval cfg)).
  apply Qmult_le_compat_r; [by apply pow2_mono | done].
Qed.

(** C4: for a non-negative base interval, every attempt number and every
    jitter [j = random * 1000] with [random] in [0, 1), the delay lies
    between [min (base * 2^a) 30000] and that value plus 1000, and the
    jitter-free part does not decrease when the attempt number grows. *)
Theorem getReconnectDelay_range_and_monotone
    (cfg : RealtimeConfig) (a b : nat) (random : Q) :
  (0 <= reconnectInterval cfg)%Q ->
  (0 <= random)%Q -> (random < 1)%Q ->
  (a <= b)%nat ->
  (Qmin (reconnectInterval cfg * pow2 a) 30000 <= getReconnectDelay cfg a random)%Q ∧
  (getReconnectDelay cfg a random <= Qmin (reconnectInterval cfg * pow2 a) 30000 + 1000)%Q ∧
  (Qmin (reconnectInterval cfg * pow2 a) 30000 <= Qmin (reconnectInterval cfg * pow2 b) 30000)%Q.
Proof.
  intros Hbase H0 H1 Hab.
  change (Qmin (reconnectInterval cfg * pow2 a) 30000) with (backoff cfg a).
  change (Qmin (reconnectInterval cfg * pow2 b) 30000) with (backoff cfg b).
  unfold getReconnectDelay. split; [|split].
  - rewrite <- (Qplus_0_r (backoff cfg a)) at 1.
    apply Qplus_le_r. apply Qmult_le_0_compat; [done | discriminate].
  - apply Qplus_le_r.
    apply Qle_trans with (1 * 1000)%Q; [|discriminate].
    apply Qmult_le_compat_r; [by apply Qlt_le_weak | discriminate].
  - by apply backoff_mono.
Qed.

Lemma getReconnectDelay_range_and_monotone_witness :
  (Qmin (reconnectInterval DEFAULT_CONFIG * pow2 3) 30000
     <= getReconnectDelay DEFAULT_CONFIG 3 (1 # 2))%Q ∧
  (getReconnectDelay DEFAULT_CONFIG 3 (1 # 2)
     <= Qmin (reconnectInterval DEFAULT_CONFIG * pow2 3) 30000 + 1000)%Q ∧
  (Qmin (reconnectInterval DEFAULT_CONFIG * pow2 3) 30000
     <= Qmin (reconnectInterval DEFAULT_CONFIG * pow2 7) 30000)%Q.
Proof.
  apply (getReconnectDelay_range_and_monotone DEFAULT_CONFIG 3 7 (1 # 2)).
  - discriminate.
  - discriminate.
  - reflexivity.
  - lia.
Defined.

(** ** Reference counting of physical channels *)

Lemma active_callbacks_lookup (c : string) (s : state) (sub : ChannelSubscription) :
  channelsRef s !! c = Some sub -> active_callbacks c s = size (callbacks sub).
Proof. intros H. unfold active_callbacks. by rewrite H. Qed.

Lemma active_callbacks_none (c : string) (s : state) :
  channelsRef s !! c = None -> active_callbacks c s = 0%nat.
Proof. intros H. unfold active_callbacks. by rewrite H. Qed.

(** What [subscribe] does in each of its three cases. *)
Lemma subscribe_refused (c cid : string) (cb : callback) (now : Z) (s : state) :
  user s = None ∨ conn_status (connection s) ≠ connected ->
  subscribe c cid cb now s = (s, Noop).
Proof.
  intros H. unfold subscribe. destruct (user s); [|done].
  destruct (decide (conn_status (connection s) = connected)); [|done].
  destruct H; congruence.
Qed.

Lemma subscribe_existing (c cid : string) (cb : callback) (now : Z) (s : state)
    (sub : ChannelSubscription) :
  is_Some (user s) -> conn_status (connection s) = connected ->
  channelsRef s !! c = Some sub ->
  subscribe c cid cb now s =
    (set_channelsRef
       (<[c := set_callbacks (<[cid := cb]> (callbacks sub)) sub]> (channelsRef s)) s,
     Remove c cid).
Proof.
  intros [u Hu] Hst Hc. unfold subscribe. rewrite Hu, Hc.
  destruct (decide (conn_status (connection s) = connected)); done.
Qed.

Lemma subscribe_first (c cid : string) (cb : callback) (now : Z) (s : state) :
  is_Some (user s) -> conn_status (connection s) = connected ->
  channelsRef s !! c = None ->
  ∃ s', subscribe c cid cb now s = (s', Remove c cid) ∧
    channelsRef s' =
      <[c := {| channel := {| handle := fresh s; topic := c |};
                callbacks := {[cid := cb]}; lastActivity := now |}]> (channelsRef s) ∧
    transport s' = ChannelCreated {| handle := fresh s; topic := c |} :: transport s ∧
    subscriptions (connection s') = subscriptions (connection s) ++ [c] ∧
    conn_status (connection s') = conn_status (connection s) ∧
    user s' = user s.
Proof.
  intros [u Hu] Hst Hc. unfold subscribe. rewrite Hu, Hc.
  destruct (decide (conn_status (connection s) = connected)); [|done].
  eexists. split; [reflexivity|]. simpl.
  rewrite insert_insert_eq. repeat split; try done.
Qed.

Lemma unchanged_counts (c : string) (s : state) :
  channel_consistent c s ->
  channel_consistent c s ∧
  creations c s =
    (creations c s +
     if decide (active_callbacks c s = 0 ∧ active_callbacks c s = 1) then 1 else 0)%nat ∧
  teardowns c s =
    (teardowns c s +
     if decide (active_callbacks c s = 1 ∧ active_callbacks c s = 0) then 1 else 0)%nat.
Proof. intros H. split; [done|]. split; try case_decide; lia. Qed.

(** One call: the invariant is kept, a channel is created exactly on a step
    from 0 to 1 callbacks and torn down exactly on a step from 1 to 0. *)
Lemma do_call_counts (c : string) (k : channel_call) (s : state) :
  channel_consistent c s ->
  channel_consistent c (do_call c k s) ∧
  creations c (do_call c k s) =
    (creations c s +
     if decide (active_callbacks c s = 0 ∧ active_callbacks c (do_call c k s) = 1)
     then 1 else 0)%nat ∧
  teardowns c (do_call c k s) =
    (teardowns c s +
     if decide (active_callbacks c s = 1 ∧ active_callbacks c (do_call c k s) = 0)
     then 1 else 0)%nat.
Proof.
  intros Hinv.
  destruct k as [cid cb now | cid]; unfold do_call.
  - destruct (user s) as [uid|] eqn:Hu; last first.
    { rewrite subscribe_refused by auto. by apply unchanged_counts. }
    destruct (decide (conn_status (connection s) = connected)) as [Hst|Hst]; last first.
    { rewrite subscribe_refused by auto. by apply unchanged_counts. }
    assert (Hsome : is_Some (user s)) by (rewrite Hu; eauto).
    pose proof Hinv as Hinv0. unfold channel_consistent in Hinv.
    destruct (channelsRef s !! c) as [sub|] eqn:Hc.
    + rewrite (subscribe_existing c cid cb now s sub) by done. cbn [fst].
      destruct Hinv as (Htop & Hsz & Hcnt).
      assert (Hsz' : size (<[cid:=cb]> (callbacks sub)) ≠ 0%nat).
      { rewrite map_size_insert. destruct (callbacks sub !! cid); simpl; lia. }
      rewrite (active_callbacks_lookup c s sub Hc).
      erewrite active_callbacks_lookup; last by (simpl; apply lookup_insert_eq).
      simpl. split; [|split].
      * unfold channel_consistent. simpl. rewrite lookup_insert_eq. simpl. done.
      * unfold creations. simpl. case_decide; lia.
      * unfold teardowns. simpl. case_decide; lia.
    + destruct (subscribe_first c cid cb now s Hsome Hst Hc)
        as (s' & -> & Hch & Htr & _). cbn [fst].
      rewrite (active_callbacks_none c s Hc).
      erewrite active_callbacks_lookup; last by (rewrite Hch; apply lookup_insert_eq).
      simpl. rewrite map_size_singleton.
      unfold channel_consistent, creations, teardowns in *. rewrite Hch, Htr.
      rewrite lookup_insert_eq. simpl.
      rewrite bool_decide_eq_true_2 by done. simpl. rewrite map_size_singleton.
      split; [by rewrite Hinv|]. split; try case_decide; lia.
  - unfold run_unsubscribe_fn. pose proof Hinv as Hinv0.
    unfold channel_consistent in Hinv.
    destruct (channelsRef s !! c) as [sub|] eqn:Hc; [|by apply unchanged_counts].
    destruct Hinv as (Htop & Hsz & Hcnt).
    rewrite (active_callbacks_lookup c s sub Hc).
    destruct (decide (size (delete cid (callbacks sub)) = 0%nat)) as [Hz|Hz].
    + assert (Hone : size (callbacks sub) = 1%nat).
      { rewrite map_size_delete in Hz. destruct (callbacks sub !! cid); simpl in Hz; lia. }
      rewrite active_callbacks_none by (simpl; apply lookup_delete_eq).
      unfold channel_consistent, creations, teardowns in *. simpl.
      rewrite lookup_delete_eq.
      rewrite bool_decide_eq_true_2 by done. simpl.
      split; [done|]. split; try case_decide; lia.
    + erewrite active_callbacks_lookup; last by (simpl; apply lookup_insert_eq).
      unfold channel_consistent, creations, teardowns in *. simpl.
      rewrite lookup_insert_eq. simpl.
      split; [done|]. split; try case_decide; lia.
Qed.

Lemma channel_consistent_live (c : string) (s : state) :
  channel_consistent c s ->
  (live_channels c s <= 1)%nat ∧
  (live_channels c s = 1%nat ↔ is_Some (channelsRef s !! c)).
Proof.
  unfold channel_consistent, live_channels.
  destruct (channelsRef s !! c) as [sub|].
  - intros (_ & _ & ->). split; [lia|]. split; [eauto | lia].
  - intros ->. split; [lia|]. split; [lia | by intros [? ?]].
Qed.

(** C1: on one channel name, from a state where the name is consistently
    bound, any sequence of [subscribe] calls and calls of the returned
    unsubscribe functions creates as many physical channels as the callback
    count steps from 0 to 1, tears down as many as it steps from 1 to 0, and
    at every state of the run at most one physical channel of that name
    exists, namely when the map has an entry for it. *)
Theorem subscribe_reference_counting (c : string) (calls : list channel_call) (s : state) :
  channel_consistent c s ->
  creations c (run c calls s) =
    (creations c s + transitions 0 1 (active_callbacks c <$> states c calls s))%nat ∧
  teardowns c (run c calls s) =
    (teardowns c s + transitions 1 0 (active_callbacks c <$> states c calls s))%nat ∧
  Forall (fun s' => (live_channels c s' <= 1)%nat ∧
                    (live_channels c s' = 1%nat ↔ is_Some (channelsRef s' !! c)))
    (states c calls s).
Proof.
  revert s. induction calls as [|k rest IH]; intros s Hinv.
  - simpl. repeat split; try lia.
    constructor; [by apply channel_consistent_live | constructor].
  - destruct (do_call_counts c k s Hinv) as (Hinv' & Hcr & Htd).
    destruct (IH _ Hinv') as (IHcr & IHtd & IHall).
    change (run c (k :: rest) s) with (run c rest (do_call c k s)).
    change (states c (k :: rest) s) with (s :: states c rest (do_call c k s)).
    rewrite IHcr, IHtd, Hcr, Htd.
    assert (Hhd : ∃ tl, states c rest (do_call c k s) = do_call c k s :: tl).
    { destruct rest; simpl; eauto. }
    destruct Hhd as [tl Htl]. rewrite Htl in *.
    rewrite !fmap_cons. cbn [transitions].
    split; [lia|]. split; [lia|].
    constructor; [by apply channel_consistent_live | done].
Qed.

Lemma subscribe_reference_counting_witness :
  let c := "team_presence_t1" in
  let calls := [Subscribe "cb_a" 1 10; Subscribe "cb_b" 2 11; Unsubscribe "cb_a";
                Unsubscribe "cb_a"; Unsubscribe "cb_b"; Subscribe "cb_c" 3 12] in
  creations c (run c calls connected_session) =
    (creations c connected_session +
     transitions 0 1 (active_callbacks c <$> states c calls connected_session))%nat ∧
  teardowns c (run c calls connected_session) =
    (teardowns c connected_session +
     transitions 1 0 (active_callbacks c <$> states c calls connected_session))%nat ∧
  Forall (fun s' => (live_channels c s' <= 1)%nat ∧
                    (live_channels c s' = 1%nat ↔ is_Some (channelsRef s' !! c)))
    (states c calls connected_session).
Proof.
  intros c calls.
  apply (subscribe_reference_counting c calls connected_session).
  vm_compute. reflexivity.
Defined.

(** ** The function returned by [subscribe] *)

Ltac break_match :=
  repeat match goal with
         | |- context [match ?x with _ => _ end] => destruct x eqn:?; simpl
         end.

Lemma set_channelsRef_same (s : state) : set_channelsRef (channelsRef s) s = s.
Proof. by destruct s. Qed.

Lemma set_callbacks_same (sub : ChannelSubscription) :
  set_callbacks (callbacks sub) sub = sub.
Proof. by destruct sub. Qed.

Lemma channelsRef_track_all (p : UserPresence) (s : state) :
  channelsRef (track_all p s) = channelsRef s.
Proof.
  unfold track_all. generalize (map_to_list (channelsRef s)) as l.
  induction l as [|kv l IH]; simpl; [done|].
  destruct (includes "presence" kv.1); simpl; done.
Qed.

Lemma channelsRef_scheduleReconnect cfg seen now random (s : state) :
  channelsRef (scheduleReconnect cfg seen now random s) = channelsRef s.
Proof. unfold scheduleReconnect. break_match; reflexivity. Qed.

Lemma channelsRef_connect cfg seen now random probe (s : state) :
  channelsRef (connect cfg seen now random probe s) = channelsRef s.
Proof.
  unfold connect. destruct (user s); [|done]. destruct (isConnectingRef s); [done|].
  destruct probe; simpl.
  - by rewrite channelsRef_scheduleReconnect.
  - unfold startHeartbeat. break_match; reflexivity.
Qed.

Lemma channelsRef_retry_timer_fires cfg h seen now random probe (s : state) :
  channelsRef (retry_timer_fires cfg h seen now random probe s) = channelsRef s.
Proof.
  unfold retry_timer_fires. destruct (timeouts s !! h); [|done].
  by rewrite channelsRef_connect.
Qed.

(** A released identifier stays released as long as no [subscribe] on the
    channel draws it again. *)
Lemma released_perform (c k : string) (a : action) (s : state) :
  draws c k a = false -> released c k s -> released c k (perform a s).
Proof.
  intros Hd Hrel. unfold released in *.
  destruct a as [c' k' cb now | f | c' | now p | c' ev pl
                 | cfg seen now rnd probe | cfg h seen now rnd probe | now]; simpl.
  - (* subscribe *)
    destruct (user s) as [u|] eqn:Hu; last by rewrite subscribe_refused by auto.
    destruct (decide (conn_status (connection s) = connected)) as [Hst|Hst];
      last by rewrite subscribe_refused by auto.
    assert (Hsome : is_Some (user s)) by (rewrite Hu; eauto).
    destruct (channelsRef s !! c') as [sub'|] eqn:Hc'.
    + rewrite (subscribe_existing c' k' cb now s sub') by done. simpl.
      destruct (decide (c' = c)) as [->|Hne].
      * rewrite lookup_insert_eq. simpl. rewrite Hc' in Hrel. destruct Hrel as [Hk Hsz].
        simpl in Hd. apply bool_decide_eq_false in Hd.
        split.
        -- rewrite lookup_insert_ne; [done|]. intros ->. by apply Hd.
        -- rewrite map_size_insert. destruct (callbacks sub' !! k'); simpl; lia.
      * by rewrite lookup_insert_ne.
    + destruct (subscribe_first c' k' cb now s Hsome Hst Hc') as (s' & -> & Hch & _).
      simpl. rewrite Hch.
      destruct (decide (c' = c)) as [->|Hne].
      * rewrite lookup_insert_eq. simpl.
        simpl in Hd. apply bool_decide_eq_false in Hd.
        split.
        -- rewrite lookup_singleton_ne; [done|]. intros ->. by apply Hd.
        -- by rewrite map_size_singleton.
      * by rewrite lookup_insert_ne.
  - (* a returned unsubscribe function *)
    destruct f as [|c' k']; simpl; [done|].
    destruct (channelsRef s !! c') as [sub'|] eqn:Hc'; [|done].
    destruct (decide (size (delete k' (callbacks sub')) = 0%nat)) as [Hz|Hz]; simpl.
    + destruct (decide (c' = c)) as [->|Hne].
      * by rewrite lookup_delete_eq.
      * by rewrite lookup_delete_ne.
    + destruct (decide (c' = c)) as [->|Hne].
      * rewrite lookup_insert_eq. simpl. rewrite Hc' in Hrel. destruct Hrel as [Hk _].
        split; [|done]. rewrite lookup_delete_None. by right.
      * by rewrite lookup_insert_ne.
  - (* hard unsubscribe *)
    unfold unsubscribe. destruct (channelsRef s !! c') as [sub'|] eqn:Hc'; [|done].
    simpl. destruct (decide (c' = c)) as [->|Hne].
    + by rewrite lookup_delete_eq.
    + by rewrite lookup_delete_ne.
  - unfold updatePresence. destruct (user s); [|done].
    by rewrite channelsRef_track_all.
  - unfold sendMessage. destruct (channelsRef s !! c'); done.
  - by rewrite channelsRef_connect.
  - by rewrite channelsRef_retry_timer_fires.
  - by rewrite lookup_empty.
Qed.

Lemma released_perform_all (c k : string) (l : list action) (s : state) :
  Forall (fun a => draws c k a = false) l ->
  released c k s -> released c k (perform_all l s).
Proof.
  revert s. induction l as [|a l IH]; intros s Hall Hrel; [done|].
  inversion Hall; subst. simpl. apply IH; [done|]. by apply released_perform.
Qed.

(** Running the function on a released identifier changes nothing. *)
Lemma released_noop (c k : string) (s : state) :
  released c k s -> run_unsubscribe_fn (Remove c k) s = s.
Proof.
  unfold released, run_unsubscribe_fn.
  destruct (channelsRef s !! c) as [sub|] eqn:Hc; [|done].
  intros [Hk Hsz]. rewrite (delete_id _ _ Hk).
  destruct (decide (size (callbacks sub) = 0%nat)); [done|].
  rewrite set_callbacks_same, insert_id by done. apply set_channelsRef_same.
Qed.

(** After its first run the identifier is released. *)
Lemma run_unsubscribe_fn_releases (c k : string) (s : state) :
  released c k (run_unsubscribe_fn (Remove c k) s).
Proof.
  unfold released, run_unsubscribe_fn.
  destruct (channelsRef s !! c) as [sub|] eqn:Hc; [|by rewrite Hc].
  destruct (decide (size (delete k (callbacks sub)) = 0%nat)) as [Hz|Hz]; simpl.
  - by rewrite lookup_delete_eq.
  - rewrite lookup_insert_eq. simpl. split; [apply lookup_delete_eq | done].
Qed.

(** C10: the function returned by [subscribe] for identifier [k] on channel
    [c] removes that callback and no other, tears the physical channel down
    exactly when no other callback is left, and every run of it after the
    first, whatever happened to the hook in between (hard unsubscribe and
    disconnect included), changes nothing, provided no later [subscribe]
    on [c] draws [k] again.  The functions are total: nothing is thrown. *)
Theorem unsubscribe_fn_idempotent_isolated
    (c k : string) (s : state) (later : list action) :
  Forall (fun a => draws c k a = false) later ->
  let s1 := run_unsubscribe_fn (Remove c k) s in
  (∀ c' k', c' ≠ c ∨ k' ≠ k -> registered c' k' s1 = registered c' k' s) ∧
  registered c k s1 = None ∧
  match channelsRef s !! c with
  | Some sub =>
      if decide (delete k (callbacks sub) = ∅)
      then transport s1 = ChannelUnsubscribed (channel sub) :: transport s ∧
           channelsRef s1 !! c = None
      else transport s1 = transport s ∧ is_Some (channelsRef s1 !! c)
  | None => s1 = s
  end ∧
  run_unsubscribe_fn (Remove c k) (perform_all later s1) = perform_all later s1 ∧
  run_unsubscribe_fn Noop (perform_all later s1) = perform_all later s1.
Proof.
  intros Hfresh s1.
  assert (Hrel : released c k s1) by apply run_unsubscribe_fn_releases.
  split; [|split; [|split; [|split]]].
  - intros c' k' Hne. subst s1. unfold registered, run_unsubscribe_fn.
    destruct (channelsRef s !! c) as [sub|] eqn:Hc; [|done].
    destruct (decide (size (delete k (callbacks sub)) = 0%nat)) as [Hz|Hz]; simpl.
    + destruct (decide (c' = c)) as [->|Hc'].
      * rewrite lookup_delete_eq, Hc. simpl.
        destruct Hne as [?|Hk]; [done|].
        apply map_size_empty_iff in Hz.
        assert (delete k (callbacks sub) !! k' = None) as Hl by (by rewrite Hz).
        by rewrite lookup_delete_ne in Hl.
      * by rewrite lookup_delete_ne.
    + destruct (decide (c' = c)) as [->|Hc'].
      * rewrite lookup_insert_eq, Hc. simpl.
        destruct Hne as [?|Hk]; [done|]. by rewrite lookup_delete_ne.
      * by rewrite lookup_insert_ne.
  - unfold released in Hrel. unfold registered.
    destruct (channelsRef s1 !! c); simpl; [by destruct Hrel | done].
  - subst s1. unfold run_unsubscribe_fn.
    destruct (channelsRef s !! c) as [sub|] eqn:Hc; [|done].
    destruct (decide (size (delete k (callbacks sub)) = 0%nat)) as [Hz|Hz];
      destruct (decide (delete k (callbacks sub) = ∅)) as [He|He]; simpl.
    + split; [done | apply lookup_delete_eq].
    + by apply map_size_empty_iff in Hz.
    + by apply map_size_empty_iff in He.
    + split; [done|]. rewrite lookup_insert_eq. eauto.
  - apply released_noop. by apply released_perform_all.
  - reflexivity.
Qed.

Lemma unsubscribe_fn_idempotent_isolated_witness :
  let s := (subscribe "team_members_t1" "cb_b" 2 11
              (subscribe "team_members_t1" "cb_a" 1 10 connected_session).1).1 in
  let later := [DoSubscribe "team_members_t1" "cb_c" 3 12;
                DoUnsubscribe "team_members_t1";
                DoSubscribe "team_members_t1" "cb_d" 4 13;
                DoDisconnect 14] in
  let s1 := run_unsubscribe_fn (Remove "team_members_t1" "cb_a") s in
  registered "team_members_t1" "cb_b" s1 = Some 2%nat ∧
  run_unsubscribe_fn (Remove "team_members_t1" "cb_a") (perform_all later s1)
    = perform_all later s1.
Proof.
  intros s later s1.
  destruct (unsubscribe_fn_idempotent_isolated "team_members_t1" "cb_a" s later)
    as (Hother & _ & _ & Hnoop & _).
  - repeat constructor.
  - split; [|exact Hnoop].
    fold s1 in Hother. rewrite Hother by (right; done). reflexivity.
Defined.

(** ** sendMessage *)

(** C9: on a channel name that the subscription map does not bind,
    [sendMessage] is rejected with the not-found error and nothing reaches
    the transport; on a bound name it resolves after one broadcast on the
    channel of the entry.  The failure is a rejection, not a result value. *)
Theorem sendMessage_unknown_channel_rejected
    (c event : string) (payload : json) (s : state) :
  (channelsRef s !! c = None ->
     sendMessage c event payload s = Rejected ("Channel " +:+ c +:+ " not found") ∧
     perform (DoSendMessage c event payload) s = s) ∧
  (∀ sub, channelsRef s !! c = Some sub ->
     ∃ s', sendMessage c event payload s = Resolved s' ∧
           transport s' = Sent (channel sub) event payload :: transport s ∧
           channelsRef s' = channelsRef s ∧ connection s' = connection s).
Proof.
  split.
  - intros Hc. unfold perform, sendMessage. by rewrite Hc.
  - intros sub Hc. unfold sendMessage. rewrite Hc. eexists. by split.
Qed.

Lemma sendMessage_unknown_channel_rejected_witness :
  sendMessage "team_chat_t1" "ping" JNull connected_session
    = Rejected "Channel team_chat_t1 not found" ∧
  ∃ s', sendMessage "team_chat_t1" "ping" JNull
          (subscribe "team_chat_t1" "cb_a" 1 10 connected_session).1 = Resolved s' ∧
        transport s' =
          [Sent {| handle := 2; topic := "team_chat_t1" |} "ping" JNull;
           ChannelCreated {| handle := 2; topic := "team_chat_t1" |}].
Proof.
  split.
  - apply (sendMessage_unknown_channel_rejected "team_chat_t1" "ping" JNull
             connected_session).
    vm_compute. reflexivity.
  - destruct (sendMessage_unknown_channel_rejected "team_chat_t1" "ping" JNull
                (subscribe "team_chat_t1" "cb_a" 1 10 connected_session).1)
      as [_ H].
    destruct (H {| channel := {| handle := 2; topic := "team_chat_t1" |};
                   callbacks := {[ "cb_a" := 1%nat ]}; lastActivity := 10 |})
      as (s' & Hs & Ht & _).
    + vm_compute. reflexivity.
    + exists s'. split; [exact Hs | exact Ht].
Defined.

(** ** disconnect *)

Lemma foldr_unsubscribe_calls (l : list (string * ChannelSubscription)) (s : state) :
  foldr (fun kv acc => call (ChannelUnsubscribed (channel kv.2)) acc) s l =
  Build_state (user s) (connection s) (channelsRef s) (heartbeatRef s)
    (reconnectTimeoutRef s) (presenceRef s) (isConnectingRef s) (timeouts s)
    (intervals s) (fresh s)
    (((fun kv => ChannelUnsubscribed (channel kv.2)) <$> l) ++ transport s).
Proof.
  induction l as [|kv l IH]; simpl.
  - by destruct s.
  - by rewrite IH.
Qed.

(** [disconnect] written out field by field. *)
Lemma disconnect_fields (now : Z) (s : state) :
  disconnect now s = {|
    user := user s;
    connection := {| id := id (connection s); conn_status := disconnected;
                     last_ping := now; reconnect_attempts := 0; subscriptions := [];
                     conn_error := conn_error (connection s) |};
    channelsRef := ∅;
    heartbeatRef := None;
    reconnectTimeoutRef := None;
    presenceRef := presenceRef s;
    isConnectingRef := isConnectingRef s;
    timeouts := match reconnectTimeoutRef s with
                | Some h => delete h (timeouts s)
                | None => timeouts s
                end;
    intervals := match heartbeatRef s with
                 | Some h => intervals s ∖ {[h]}
                 | None => intervals s
                 end;
    fresh := fresh s;
    transport := ((fun kv => ChannelUnsubscribed (channel kv.2)) <$>
                    map_to_list (channelsRef s)) ++ transport s |}.
Proof.
  unfold disconnect. rewrite foldr_unsubscribe_calls.
  unfold stopHeartbeat.
  destruct s as [u conn ch hb rt pr ic to iv fr tr].
  destruct hb, rt; reflexivity.
Qed.

(** C5: [disconnect] stops the heartbeat, cancels the pending reconnect
    timer, unsubscribes every tracked channel, empties the subscription map
    and list, sets the status to disconnected and the retry counter to 0;
    a second call right after it throws nothing, calls nothing on the
    transport and leaves every part of the state as the first call left it,
    the [last_ping] stamp, which every status update refreshes, apart. *)
Theorem disconnect_idempotent (now1 now2 : Z) (s : state) :
  let s1 := disconnect now1 s in
  let s2 := disconnect now2 s1 in
  (heartbeatRef s1 = None ∧ ∀ h, heartbeatRef s = Some h -> h ∉ intervals s1) ∧
  (reconnectTimeoutRef s1 = None ∧
   ∀ h, reconnectTimeoutRef s = Some h -> timeouts s1 !! h = None) ∧
  (∀ c sub, channelsRef s !! c = Some sub ->
     ChannelUnsubscribed (channel sub) ∈ transport s1) ∧
  channelsRef s1 = ∅ ∧
  subscriptions (connection s1) = [] ∧
  conn_status (connection s1) = disconnected ∧
  reconnect_attempts (connection s1) = 0%nat ∧
  s2 = setConnection (set_last_ping now2) s1 ∧
  (now2 = now1 -> s2 = s1).
Proof.
  intros s1 s2. subst s2 s1. rewrite !disconnect_fields. simpl.
  rewrite map_to_list_empty. simpl.
  split_and!; try done.
  - intros h -> [_ Hh]%elem_of_difference. apply Hh. by apply elem_of_singleton.
  - intros h ->. apply lookup_delete_eq.
  - intros c sub Hc. apply elem_of_app. left.
    apply (list_elem_of_fmap_2 (fun kv => ChannelUnsubscribed (channel kv.2)) _ (c, sub)).
    by apply elem_of_map_to_list.
  - by intros ->.
Qed.

Lemma disconnect_idempotent_witness :
  let s := (subscribe "team_presence_t1" "cb_a" 1 10 connected_session).1 in
  conn_status (connection (disconnect 20 s)) = disconnected ∧
  disconnect 20 (disconnect 20 s) = disconnect 20 s.
Proof.
  intros s.
  destruct (disconnect_idempotent 20 20 s) as (_ & _ & _ & _ & _ & Hst & _ & _ & Hsame).
  split; [exact Hst | by apply Hsame].
Defined.

(** ** updatePresence *)

Lemma connection_track_all (p : UserPresence) (s : state) :
  connection (track_all p s) = connection s.
Proof.
  unfold track_all. generalize (map_to_list (channelsRef s)) as l.
  induction l as [|kv l IH]; simpl; [done|].
  destruct (includes "presence" kv.1); simpl; done.
Qed.

Lemma presenceRef_track_all (p : UserPresence) (s : state) :
  presenceRef (track_all p s) = presenceRef s.
Proof.
  unfold track_all. generalize (map_to_list (channelsRef s)) as l.
  induction l as [|kv l IH]; simpl; [done|].
  destruct (includes "presence" kv.1); simpl; done.
Qed.

(** The claim of C6 fails: a page set by one call is gone after a call
    whose argument has no page, and the team goes back to the empty
    string. *)
Lemma updatePresence_drops_earlier_fields :
  let first := {| p_user_id := None; p_team_id := Some "t1"; p_status := Some online;
                  p_last_seen := None; p_current_page := Some "/properties";
                  p_cursor_position := None; p_selection := None; p_metadata := None |} in
  let second := {| p_user_id := None; p_team_id := None; p_status := Some away;
                   p_last_seen := None; p_current_page := None;
                   p_cursor_position := None; p_selection := None; p_metadata := None |} in
  let s1 := updatePresence 100 first connected_session in
  let s2 := updatePresence 200 second s1 in
  (current_page <$> presenceRef s1) = Some (Some "/properties") ∧
  (team_id <$> presenceRef s1) = Some "t1" ∧
  (current_page <$> presenceRef s2) = Some None ∧
  (team_id <$> presenceRef s2) = Some "".
Proof. vm_compute. repeat split. Qed.

(** C6, as the code has it: for an authenticated user the new local
    presence is built from the argument alone.  The user identifier, an
    empty team, status online and the current time stand in for the keys
    the argument lacks, every other key is the argument's or absent; the
    presence of an earlier call is replaced, so the result is the same from
    any earlier state.  The local object is set in the call itself,
    whatever the channels answer; the subscription map and the connection
    are left as they were. *)
Theorem updatePresence_builds_from_argument
    (uid : string) (now : Z) (presence : PartialPresence) (s : state) :
  user s = Some uid ->
  let s' := updatePresence now presence s in
  (∃ p, presenceRef s' = Some p ∧
        user_id p = default uid (p_user_id presence) ∧
        team_id p = default "" (p_team_id presence) ∧
        status p = default online (p_status presence) ∧
        last_seen p = default now (p_last_seen presence) ∧
        current_page p = p_current_page presence ∧
        cursor_position p = p_cursor_position presence ∧
        selection p = p_selection presence ∧
        metadata p = p_metadata presence) ∧
  (∀ s0, user s0 = Some uid ->
         presenceRef (updatePresence now presence s0) = presenceRef s') ∧
  channelsRef s' = channelsRef s ∧
  connection s' = connection s.
Proof.
  intros Hu s'. subst s'. unfold updatePresence. rewrite Hu.
  split_and!.
  - eexists. rewrite presenceRef_track_all. simpl. split_and!; reflexivity.
  - intros s0 Hu0. rewrite Hu0. by rewrite !presenceRef_track_all.
  - by rewrite channelsRef_track_all.
  - by rewrite connection_track_all.
Qed.

Lemma updatePresence_builds_from_argument_witness :
  let presence := {| p_user_id := None; p_team_id := None; p_status := Some away;
                     p_last_seen := None; p_current_page := None;
                     p_cursor_position := None; p_selection := None;
                     p_metadata := None |} in
  ∃ p, presenceRef (updatePresence 200 presence connected_session) = Some p ∧
       status p = away ∧ last_seen p = 200%Z ∧ team_id p = "" ∧ current_page p = None.
Proof.
  intros presence.
  destruct (updatePresence_builds_from_argument "user-1" 200 presence connected_session)
    as [(p & Hp & _ & Ht & Hs & Hl & Hc & _) _].
  - reflexivity.
  - exists p. split_and!; [exact Hp | exact Hs | exact Hl | exact Ht | exact Hc].
Defined.

(** ** Reconnection *)













(** * Further properties of the connection manager *)

(** ** The delay cap *)

(** X1: Whatever the configuration and the attempt number, the delay is at
    most 31 seconds (the bound is closed: the doubles of the source can
    round the sum up to 31000 itself); with a non-negative base interval it
    is never negative, and once the doubling has reached the 30 second cap
    every later attempt gets the cap as well. *)
Theorem getReconnectDelay_capped
    (cfg : RealtimeConfig) (a b : nat) (random : Q) :
  (0 <= random)%Q -> (random < 1)%Q ->
  (getReconnectDelay cfg a random <= 31000)%Q ∧
  ((0 <= reconnectInterval cfg)%Q -> (0 <= getReconnectDelay cfg a random)%Q) ∧
  ((0 <= reconnectInterval cfg)%Q -> (30000 <= reconnectInterval cfg * pow2 a)%Q ->
   (a <= b)%nat -> (backoff cfg b == 30000)%Q).
Proof.
  intros H0 H1. split_and!.
  - unfold getReconnectDelay, backoff.
    apply Qle_trans with (30000 + random * 1000)%Q.
    + apply Qplus_le_l. apply Q.le_min_r.
    + apply Qle_trans with (30000 + 1 * 1000)%Q; [|discriminate].
      apply Qplus_le_r. apply Qmult_le_compat_r; [by apply Qlt_le_weak | discriminate].
  - intros Hbase. unfold getReconnectDelay, backoff.
    apply Qle_trans with (0 + 0)%Q; [discriminate|].
    apply Qplus_le_compat.
    + apply Q.min_glb; [|discriminate].
      apply Qmult_le_0_compat; [done|]. unfold pow2.
      change (0 : Q) with (inject_Z 0).
      rewrite <- Zle_Qle. apply Z.pow_nonneg. lia.
    + apply Qmult_le_0_compat; [done | discriminate].
  - intros Hbase Hcap Hab. unfold backoff. apply Q.min_r.
    apply Qle_trans with (reconnectInterval cfg * pow2 a)%Q; [done|].
    rewrite !(Qmult_comm (reconnectInterval cfg)).
    apply Qmult_le_compat_r; [by apply pow2_mono | done].
Qed.

Lemma getReconnectDelay_capped_witness :
  (getReconnectDelay DEFAULT_CONFIG 40 (9 # 10) <= 31000)%Q ∧
  (backoff DEFAULT_CONFIG 40 == 30000)%Q.
Proof.
  destruct (getReconnectDelay_capped DEFAULT_CONFIG 5 40 (9 # 10)) as (_ & _ & Hcap);
    [discriminate | reflexivity |].
  destruct (getReconnectDelay_capped DEFAULT_CONFIG 40 40 (9 # 10)) as (Hlt & _);
    [discriminate | reflexivity |].
  split; [exact Hlt|]. apply Hcap; [discriminate | vm_compute; discriminate | lia].
Defined.

(** ** Presence announcements *)

Lemma transport_track_all (p : UserPresence) (s : state) :
  transport (track_all p s) = presence_calls p s ++ transport s.
Proof.
  unfold track_all, presence_calls.
  generalize (map_to_list (channelsRef s)) as l.
  induction l as [|kv l IH]; simpl; [done|].
  rewrite filter_cons.
  destruct (includes "presence" kv.1) eqn:Hinc; simpl.
  - destruct (decide (true = true)); [|done]. simpl. by rewrite IH.
  - destruct (decide (false = true)); [done|]. exact IH.
Qed.

(** X2: [updatePresence] does nothing without a user; with one, it announces
    the new presence object on every channel of the map whose name includes
    "presence", and every call it makes on the transport is such an
    announcement. *)
Theorem updatePresence_announces_on_presence_channels
    (now : Z) (presence : PartialPresence) (s : state) :
  (user s = None -> updatePresence now presence s = s) ∧
  (∀ uid, user s = Some uid ->
     let p := updatedPresence uid now presence in
     let s' := updatePresence now presence s in
     (∃ calls, transport s' = calls ++ transport s ∧
        ∀ e, e ∈ calls ->
          ∃ c sub, channelsRef s !! c = Some sub ∧ includes "presence" c = true ∧
                   e = Tracked (channel sub) p) ∧
     (∀ c sub, channelsRef s !! c = Some sub -> includes "presence" c = true ->
        Tracked (channel sub) p ∈ transport s')).
Proof.
  split.
  - intros Hu. unfold updatePresence. by rewrite Hu.
  - intros uid Hu p s'. subst s'. unfold updatePresence. rewrite Hu.
    rewrite transport_track_all. fold p. split.
    + exists (presence_calls p (set_presenceRef (Some p) s)). split; [done|].
      intros e He. unfold presence_calls in He. simpl in He.
      apply list_elem_of_fmap in He as ([c sub] & -> & Hin).
      apply list_elem_of_filter in Hin as [Hinc Hin].
      apply elem_of_map_to_list in Hin. eauto.
    + intros c sub Hc Hinc. apply elem_of_app. left.
      unfold presence_calls. simpl.
      apply (list_elem_of_fmap_2 (fun kv => Tracked (channel kv.2) p) _ (c, sub)).
      apply list_elem_of_filter. split; [done|]. by apply elem_of_map_to_list.
Qed.

Lemma updatePresence_announces_on_presence_channels_witness :
  let s := (subscribe "team_members_t1" "cb_b" 2 11
              (subscribe "team_presence_t1" "cb_a" 1 10 connected_session).1).1 in
  let presence := {| p_user_id := None; p_team_id := Some "t1"; p_status := None;
                     p_last_seen := None; p_current_page := None;
                     p_cursor_position := None; p_selection := None;
                     p_metadata := None |} in
  Tracked {| handle := 2; topic := "team_presence_t1" |}
    (updatedPresence "user-1" 30 presence) ∈ transport (updatePresence 30 presence s).
Proof.
  intros s presence.
  destruct (updatePresence_announces_on_presence_channels 30 presence s) as [_ H].
  destruct (H "user-1") as [_ Hall]; [reflexivity|].
  apply (Hall "team_presence_t1"
           {| channel := {| handle := 2; topic := "team_presence_t1" |};
              callbacks := {[ "cb_a" := 1%nat ]}; lastActivity := 10 |}).
  - vm_compute. reflexivity.
  - reflexivity.
Defined.

(** ** The heartbeat *)

(** X3: A heartbeat tick built while the status was not connected, or with no
    local presence yet, does nothing.  Otherwise it announces the local
    presence with [last_seen] set to now on the presence channels and
    stamps [last_ping]; the local presence object itself, the channel
    map, the status and the retry counter are left as they are. *)
Theorem heartbeat_tick_announces (seen : ConnectionStatus) (now : Z) (s : state) :
  let s' := heartbeat_tick seen now s in
  (seen ≠ connected ∨ presenceRef s = None -> s' = s) ∧
  (∀ p, seen = connected -> presenceRef s = Some p ->
     transport s' = presence_calls (set_last_seen now p) s ++ transport s ∧
     last_ping (connection s') = now) ∧
  presenceRef s' = presenceRef s ∧
  channelsRef s' = channelsRef s ∧
  conn_status (connection s') = conn_status (connection s) ∧
  reconnect_attempts (connection s') = reconnect_attempts (connection s) ∧
  timeouts s' = timeouts s ∧ intervals s' = intervals s.
Proof.
  intros s'. subst s'. unfold heartbeat_tick.
  destruct (decide (seen = connected)) as [Hs|Hs].
  - destruct (presenceRef s) as [p|] eqn:Hp.
    + split_and!; simpl.
      * intros [?|?]; done.
      * intros p' _ [= <-]. by rewrite transport_track_all.
      * by rewrite presenceRef_track_all.
      * by rewrite channelsRef_track_all.
      * by rewrite connection_track_all.
      * by rewrite connection_track_all.
      * unfold track_all. generalize (map_to_list (channelsRef s)) as l.
        induction l as [|kv l IH]; simpl; [done|].
        destruct (includes "presence" kv.1); simpl; done.
      * unfold track_all. generalize (map_to_list (channelsRef s)) as l.
        induction l as [|kv l IH]; simpl; [done|].
        destruct (includes "presence" kv.1); simpl; done.
    + split_and!; try done.
  - split_and!; try done.
Qed.

Lemma heartbeat_tick_announces_witness :
  let presence := {| p_user_id := None; p_team_id := Some "t1"; p_status := None;
                     p_last_seen := None; p_current_page := None;
                     p_cursor_position := None; p_selection := None;
                     p_metadata := None |} in
  let s := updatePresence 30 presence
             (subscribe "team_presence_t1" "cb_a" 1 10 connected_session).1 in
  last_ping (connection (heartbeat_tick connected 30000 s)) = 30000%Z ∧
  heartbeat_tick reconnecting 30000 s = s.
Proof.
  intros presence s.
  destruct (heartbeat_tick_announces connected 30000 s) as (_ & Hsend & _).
  destruct (heartbeat_tick_announces reconnecting 30000 s) as (Hnone & _).
  split.
  - destruct (Hsend (updatedPresence "user-1" 30 presence)) as [_ Hping];
      [reflexivity | reflexivity | exact Hping].
  - apply Hnone. left. discriminate.
Defined.

(** ** The hard unsubscribe and the subscribe round trip *)

(** X4: [unsubscribe(channelName)] removes the entry of the name with all its
    callbacks, however many are left, with one call on the physical
    channel; callbacks on other names are untouched; on a name that has no
    entry, and so on a second call, it does nothing. *)
Theorem unsubscribe_drops_every_callback (c : string) (s : state) :
  let s' := unsubscribe c s in
  channelsRef s' !! c = None ∧
  (∀ k, registered c k s' = None) ∧
  (∀ c' k, c' ≠ c -> registered c' k s' = registered c' k s) ∧
  (is_Some (channelsRef s !! c) -> c ∉ subscriptions (connection s')) ∧
  match channelsRef s !! c with
  | Some sub => transport s' = ChannelUnsubscribed (channel sub) :: transport s
  | None => s' = s
  end ∧
  unsubscribe c s' = s'.
Proof.
  intros s'. subst s'.
  assert (Hnone : channelsRef (unsubscribe c s) !! c = None).
  { unfold unsubscribe. destruct (channelsRef s !! c) eqn:Hc; [|done].
    simpl. apply lookup_delete_eq. }
  split_and!.
  - done.
  - intros k. unfold registered. by rewrite Hnone.
  - intros c' k Hne. unfold registered, unsubscribe.
    destruct (channelsRef s !! c); [|done]. simpl. by rewrite lookup_delete_ne.
  - intros [sub Hc]. unfold unsubscribe. rewrite Hc. simpl.
    intros [Hne _]%list_elem_of_filter. done.
  - unfold unsubscribe. destruct (channelsRef s !! c); done.
  - unfold unsubscribe at 1. by rewrite Hnone.
Qed.

Lemma filter_keeps_all {A : Type} (P : A -> Prop) `{!∀ x, Decision (P x)} (l : list A) :
  Forall P l -> filter P l = l.
Proof.
  induction 1 as [|x l Hx _ IH]; [done|].
  by rewrite filter_cons_True, IH.
Qed.

(** X5: A [subscribe] that draws an identifier not registered on the channel,
    followed by a run of the function it returned, leaves the channel map
    as it was; when the subscription list mirrors the map it is restored
    as well.  In between, on a connected session, the callback is
    registered under the identifier. *)
Theorem subscribe_unsubscribe_round_trip
    (c k : string) (cb : callback) (now : Z) (s : state) :
  registered c k s = None ->
  (∀ sub, channelsRef s !! c = Some sub -> size (callbacks sub) ≠ 0%nat) ->
  let s1 := (subscribe c k cb now s).1 in
  let s2 := run_unsubscribe_fn (subscribe c k cb now s).2 s1 in
  channelsRef s2 = channelsRef s ∧
  (subscriptions_mirror s ->
   subscriptions (connection s2) = subscriptions (connection s)) ∧
  (is_Some (user s) -> conn_status (connection s) = connected ->
   registered c k s1 = Some cb).
Proof.
  intros Hreg Hsz s1 s2. subst s2 s1.
  destruct (user s) as [u|] eqn:Hu; last first.
  { rewrite subscribe_refused by auto. simpl. split_and!; done. }
  destruct (decide (conn_status (connection s) = connected)) as [Hst|Hst]; last first.
  { rewrite subscribe_refused by auto. simpl. split_and!; done. }
  assert (Hsome : is_Some (user s)) by (rewrite Hu; eauto).
  destruct (channelsRef s !! c) as [sub|] eqn:Hc.
  - rewrite (subscribe_existing c k cb now s sub) by done. simpl.
    unfold registered in Hreg. rewrite Hc in Hreg. simpl in Hreg.
    rewrite lookup_insert_eq. simpl.
    rewrite delete_insert_id by done.
    destruct (decide (size (callbacks sub) = 0%nat)) as [Hz|Hz];
      [by apply Hsz in Hz|].
    simpl. split_and!.
    + assert (set_callbacks (callbacks sub)
                (set_callbacks (<[k:=cb]> (callbacks sub)) sub) = sub) as ->
        by by destruct sub.
      rewrite insert_insert_eq. by apply insert_id.
    + done.
    + intros _ _. unfold registered. simpl. rewrite lookup_insert_eq. simpl.
      apply lookup_insert_eq.
  - destruct (subscribe_first c k cb now s Hsome Hst Hc)
      as (s' & Heq & Hch & Htr & Hsubs & _).
    rewrite Heq. simpl. rewrite Hch, lookup_insert_eq. simpl.
    rewrite delete_singleton_eq.
    destruct (decide (size (∅ : gmap string callback) = 0%nat)) as [_|Hz];
      [|by rewrite map_size_empty in Hz].
    simpl. rewrite Hch, Hsubs. split_and!.
    + rewrite delete_insert_id; done.
    + intros [Hnd Hmir]. rewrite filter_app, filter_cons, filter_nil.
      destruct (decide (c ≠ c)); [done|]. rewrite app_nil_r.
      apply filter_keeps_all. apply Forall_forall. intros c' Hc' ->.
      apply Hmir in Hc'. rewrite Hc in Hc'. by destruct Hc'.
    + intros _ _. unfold registered. rewrite Hch, lookup_insert_eq. simpl.
      apply lookup_singleton_eq.
Qed.

Lemma subscribe_unsubscribe_round_trip_witness :
  let s1 := (subscribe "team_members_t1" "cb_a" 1 10 connected_session).1 in
  channelsRef
    (run_unsubscribe_fn (subscribe "team_members_t1" "cb_a" 1 10 connected_session).2 s1)
    = channelsRef connected_session ∧
  registered "team_members_t1" "cb_a" s1 = Some 1%nat.
Proof.
  destruct (subscribe_unsubscribe_round_trip "team_members_t1" "cb_a" 1 10
              connected_session) as (Hmap & _ & Hreg).
  - reflexivity.
  - intros sub Hsub. vm_compute in Hsub. discriminate.
  - split; [exact Hmap|]. apply Hreg; [vm_compute; eauto | reflexivity].
Defined.

(** ** Timers *)

(** [track_all] written out: only the log grows. *)
Lemma track_all_fields (p : UserPresence) (s : state) :
  track_all p s =
  Build_state (user s) (connection s) (channelsRef s) (heartbeatRef s)
    (reconnectTimeoutRef s) (presenceRef s) (isConnectingRef s) (timeouts s)
    (intervals s) (fresh s) (presence_calls p s ++ transport s).
Proof.
  unfold track_all, presence_calls.
  generalize (map_to_list (channelsRef s)) as l.
  induction l as [|kv l IH]; simpl.
  - by destruct s.
  - rewrite filter_cons. destruct (includes "presence" kv.1) eqn:Hinc; simpl.
    + destruct (decide (true = true)); [|done]. simpl. by rewrite IH.
    + destruct (decide (false = true)); [done|]. exact IH.
Qed.

Lemma timers_tracked_scheduleReconnect cfg seen now random (s : state) :
  timers_tracked s -> timers_tracked (scheduleReconnect cfg seen now random s).
Proof.
  intros [Hto Hiv]. unfold scheduleReconnect, timers_tracked.
  destruct (reconnectTimeoutRef s) as [h0|] eqn:Href;
    destruct (decide (maxReconnectAttempts cfg <= seen)%nat); simpl; rewrite ?Href.
  - split; [|done]. intros h [d Hd]. apply lookup_delete_Some in Hd as [_ Hd]. eauto.
  - split; [|done]. intros h [d Hd].
    apply lookup_insert_Some in Hd as [[-> _]|[_ Hd]]; [done|].
    apply lookup_delete_Some in Hd as [Hne Hd].
    assert (Some h0 = Some h) as [= ->] by eauto. done.
  - split; [|done]. intros h Hh. apply Hto in Hh. done.
  - split; [|done]. intros h [d Hd].
    apply lookup_insert_Some in Hd as [[-> _]|[_ Hd]]; [done|].
    assert (None = Some h) by eauto. done.
Qed.

Lemma timers_tracked_startHeartbeat (s : state) :
  timers_tracked s -> timers_tracked (startHeartbeat s).
Proof.
  intros [Hto Hiv]. unfold startHeartbeat, timers_tracked.
  destruct (heartbeatRef s) as [h0|] eqn:Href; simpl; (split; [done|]).
  - intros h [[Hh Hne]%elem_of_difference | ->%elem_of_singleton]%elem_of_union; [|done].
    apply Hiv in Hh as [= ->]. exfalso. apply Hne. by apply elem_of_singleton.
  - intros h [Hh | ->%elem_of_singleton]%elem_of_union; [|done].
    by apply Hiv in Hh.
Qed.

Lemma timers_tracked_connect cfg seen now random probe (s : state) :
  timers_tracked s -> timers_tracked (connect cfg seen now random probe s).
Proof.
  intros Ht. unfold connect. destruct (user s); [|done].
  destruct (isConnectingRef s); [done|].
  destruct probe as [msg|].
  - set (s1 := updateConnectionStatus now error _ _).
    assert (Ht1 : timers_tracked s1) by exact Ht.
    apply (timers_tracked_scheduleReconnect cfg seen now random) in Ht1.
    exact Ht1.
  - set (s1 := updateConnectionStatus now connected _ _).
    assert (Ht1 : timers_tracked s1) by exact Ht.
    apply timers_tracked_startHeartbeat in Ht1. exact Ht1.
Qed.

Lemma timers_tracked_happen (e : event) (s : state) :
  timers_tracked s -> timers_tracked (happen e s).
Proof.
  intros Ht. destruct e as [a | h seen now]; simpl.
  - destruct a as [c k cb now | f | c | now p | c ev pl
                   | cfg seen now rnd probe | cfg h seen now rnd probe | now]; simpl.
    + unfold subscribe. destruct (user s); [|done].
      destruct (decide (conn_status (connection s) = connected)); [|done].
      destruct (channelsRef s !! c); exact Ht.
    + destruct f as [|c k]; simpl; [done|].
      destruct (channelsRef s !! c) as [sub|]; [|done].
      destruct (decide (size (delete k (callbacks sub)) = 0%nat)); exact Ht.
    + unfold unsubscribe. destruct (channelsRef s !! c); exact Ht.
    + unfold updatePresence. destruct (user s) as [uid|]; [|done].
      rewrite track_all_fields. exact Ht.
    + unfold sendMessage. destruct (channelsRef s !! c); exact Ht.
    + by apply timers_tracked_connect.
    + unfold retry_timer_fires. destruct (timeouts s !! h) as [d|] eqn:Hh; [|done].
      apply timers_tracked_connect. destruct Ht as [Hto Hiv].
      split; [|exact Hiv]. simpl. intros h' [d' Hd'].
      apply lookup_delete_Some in Hd' as [_ Hd']. eauto.
    + destruct Ht as [Hto Hiv]. rewrite disconnect_fields. split; simpl.
      * intros h [d Hd]. destruct (reconnectTimeoutRef s) as [h0|] eqn:Href.
        -- apply lookup_delete_Some in Hd as [Hne Hd].
           assert (Some h0 = Some h) as [= ->] by eauto. done.
        -- assert (None = Some h) by eauto. done.
      * intros h Hh. destruct (heartbeatRef s) as [h0|] eqn:Href.
        -- apply elem_of_difference in Hh as [Hh Hne].
           apply Hiv in Hh as [= ->]. exfalso. apply Hne. by apply elem_of_singleton.
        -- by apply Hiv in Hh.
  - destruct (decide (h ∈ intervals s)); [|done].
    unfold heartbeat_tick.
    destruct (decide (seen = connected)); [|done].
    destruct (presenceRef s) as [p|]; [|done].
    rewrite track_all_fields. exact Ht.
Qed.

Lemma tracked_size (s : state) :
  timers_tracked s -> (size (timeouts s) <= 1)%nat ∧ (size (intervals s) <= 1)%nat.
Proof.
  intros [Hto Hiv]. split.
  - destruct (reconnectTimeoutRef s) as [h0|] eqn:Href.
    + assert (He : delete h0 (timeouts s) = ∅).
      { apply map_empty. intros h. apply eq_None_not_Some. intros [d Hd].
        apply lookup_delete_Some in Hd as [Hne Hd].
        assert (Some h0 = Some h) as [= ->] by eauto. done. }
      pose proof (map_size_delete h0 (timeouts s)) as Hsz.
      rewrite He, map_size_empty in Hsz.
      destruct (timeouts s !! h0); simpl in Hsz; lia.
    + assert (He : timeouts s = ∅).
      { apply map_empty. intros h. apply eq_None_not_Some. intros Hd.
        apply Hto in Hd. done. }
      rewrite He, map_size_empty. lia.
  - destruct (heartbeatRef s) as [h0|] eqn:Href.
    + assert (Hsub : intervals s ⊆ {[h0]}).
      { intros h Hh. apply Hiv in Hh as [= ->]. by apply elem_of_singleton. }
      apply subseteq_size in Hsub. by rewrite size_singleton in Hsub.
    + assert (He : intervals s = ∅).
      { apply set_eq. intros h. split; [|by intros ?%not_elem_of_empty].
        intros Hh. by apply Hiv in Hh. }
      rewrite He, size_empty. lia.
Qed.

(** X6: From a state whose timers are the ones the refs hold, as the first
    render is, whatever is called on the hook and whichever timers fire,
    at most one retry timer is pending and at most one heartbeat interval
    is running, and the refs hold them. *)
Theorem at_most_one_timer_of_each_kind (l : list event) (s : state) :
  timers_tracked s ->
  timers_tracked (history l s) ∧
  (size (timeouts (history l s)) <= 1)%nat ∧
  (size (intervals (history l s)) <= 1)%nat.
Proof.
  intros Ht.
  assert (Ht' : timers_tracked (history l s)).
  { revert s Ht. induction l as [|e l IH]; intros s Ht; [done|].
    simpl. apply IH. by apply timers_tracked_happen. }
  split; [done|]. by apply tracked_size.
Qed.

Lemma at_most_one_timer_of_each_kind_witness :
  let l := [Call (DoConnect DEFAULT_CONFIG 0 1 0 (Some "fetch failed"));
            Call (DoConnect DEFAULT_CONFIG 0 2 0 (Some "fetch failed"));
            Call (DoRetryTimer DEFAULT_CONFIG 2 1 3 0 None);
            Call (DoConnect DEFAULT_CONFIG 0 4 0 None)] in
  (size (timeouts (history l new_session)) <= 1)%nat ∧
  (size (intervals (history l new_session)) <= 1)%nat.
Proof.
  intros l.
  destruct (at_most_one_timer_of_each_kind l new_session) as (_ & H1 & H2).
  - split; intros h Hh; vm_compute in Hh.
    + by destruct Hh.
    + discriminate Hh.
  - split; [exact H1 | exact H2].
Defined.

(** ** Channels over whole runs *)

(** What [connect] and a retry timer leave alone. *)
Lemma connect_frame cfg seen now random probe (s : state) :
  let s' := connect cfg seen now random probe s in
  channelsRef s' = channelsRef s ∧ transport s' = transport s ∧
  subscriptions (connection s') = subscriptions (connection s).
Proof.
  simpl. unfold connect. destruct (user s); [|done].
  destruct (isConnectingRef s); [done|].
  destruct probe; simpl.
  - unfold scheduleReconnect. break_match; done.
  - unfold startHeartbeat. break_match; done.
Qed.

Lemma retry_timer_frame cfg h seen now random probe (s : state) :
  let s' := retry_timer_fires cfg h seen now random probe s in
  channelsRef s' = channelsRef s ∧ transport s' = transport s ∧
  subscriptions (connection s') = subscriptions (connection s).
Proof.
  simpl. unfold retry_timer_fires. destruct (timeouts s !! h); [|done].
  set (s0 := setConnection _ _).
  destruct (connect_frame cfg seen now random probe s0) as (-> & -> & ->). done.
Qed.

Lemma mirror_frame (s s' : state) :
  channelsRef s' = channelsRef s ->
  subscriptions (connection s') = subscriptions (connection s) ->
  subscriptions_mirror s -> subscriptions_mirror s'.
Proof. unfold subscriptions_mirror. by intros -> ->. Qed.

Lemma mirror_teardown (c : string) (sub : ChannelSubscription) (s : state) :
  subscriptions_mirror s -> subscriptions_mirror (teardown c sub s).
Proof.
  intros [Hnd Hm]. unfold subscriptions_mirror, teardown. simpl. split.
  - by apply NoDup_filter.
  - intros c'. rewrite list_elem_of_filter, Hm, lookup_delete_is_Some.
    split; intros [H1 H2]; (split; [intros ->; by apply H1 | done]).
Qed.

Lemma mirror_happen (e : event) (s : state) :
  subscriptions_mirror s -> subscriptions_mirror (happen e s).
Proof.
  intros Hmir. destruct e as [a | h seen now]; simpl.
  - destruct a as [c k cb now | f | c | now p | c ev pl
                   | cfg seen now rnd probe | cfg h seen now rnd probe | now]; simpl.
    + destruct (user s) as [u|] eqn:Hu; last by rewrite subscribe_refused by auto.
      destruct (decide (conn_status (connection s) = connected)) as [Hst|Hst];
        last by rewrite subscribe_refused by auto.
      assert (Hsome : is_Some (user s)) by (rewrite Hu; eauto).
      destruct Hmir as [Hnd Hm].
      destruct (channelsRef s !! c) as [sub|] eqn:Hc.
      * rewrite (subscribe_existing c k cb now s sub) by done. simpl.
        split; [done|]. intros c'. simpl. rewrite Hm, lookup_insert_is_Some'.
        split; [by right|]. intros [<-|?]; [|done]. by rewrite Hc.
      * destruct (subscribe_first c k cb now s Hsome Hst Hc)
          as (s' & -> & Hch & _ & Hsubs & _).
        simpl. split; rewrite Hsubs.
        -- apply NoDup_app. split_and!; [done| |apply NoDup_singleton].
           intros c' Hc' ->%list_elem_of_singleton.
           apply Hm in Hc'. rewrite Hc in Hc'. by destruct Hc'.
        -- intros c'. rewrite Hch, elem_of_app, list_elem_of_singleton, Hm,
             lookup_insert_is_Some'.
           split; (intros [?|?]; [right|left]; done).
    + destruct f as [|c k]; simpl; [done|].
      destruct (channelsRef s !! c) as [sub|] eqn:Hc; [|done].
      destruct (decide (size (delete k (callbacks sub)) = 0%nat)).
      * by apply mirror_teardown.
      * destruct Hmir as [Hnd Hm]. split; [done|]. intros c'. simpl.
        rewrite Hm, lookup_insert_is_Some'.
        split; [by right|]. intros [<-|?]; [|done]. by rewrite Hc.
    + unfold unsubscribe. destruct (channelsRef s !! c); [|done].
      by apply mirror_teardown.
    + unfold updatePresence. destruct (user s) as [uid|]; [|done].
      rewrite track_all_fields. exact Hmir.
    + unfold sendMessage. destruct (channelsRef s !! c); exact Hmir.
    + destruct (connect_frame cfg seen now rnd probe s) as (H1 & _ & H2).
      by apply (mirror_frame s).
    + destruct (retry_timer_frame cfg h seen now rnd probe s) as (H1 & _ & H2).
      by apply (mirror_frame s).
    + rewrite disconnect_fields. split; simpl; [apply NoDup_nil_2|].
      intros c'. rewrite lookup_empty. split; [by intros ?%not_elem_of_nil|].
      by intros [? ?].
  - destruct (decide (h ∈ intervals s)); [|done].
    unfold heartbeat_tick.
    destruct (decide (seen = connected)); [|done].
    destruct (presenceRef s) as [p|]; [|done].
    rewrite track_all_fields. exact Hmir.
Qed.

(** X7: From a state where the subscription list of the connection names the
    channels of the map, as the first render is, it keeps doing so
    through every run: a name is listed, once, exactly when it has an
    entry, so the list is empty after [disconnect]. *)
Theorem subscription_list_mirrors_channels (l : list event) (s : state) :
  subscriptions_mirror s ->
  let s' := history l s in
  NoDup (subscriptions (connection s')) ∧
  (∀ c, c ∈ subscriptions (connection s') ↔ is_Some (channelsRef s' !! c)) ∧
  length (subscriptions (connection s')) = size (channelsRef s').
Proof.
  intros Hmir.
  assert (Hmir' : subscriptions_mirror (history l s)).
  { revert s Hmir. induction l as [|e l IH]; intros s Hmir; [done|].
    simpl. apply IH. by apply mirror_happen. }
  destruct Hmir' as [Hnd Hm]. simpl. split_and!; [done..|].
  rewrite <- size_dom, <- (size_list_to_set (C := gset string)) by done.
  f_equal. apply set_eq. intros c.
  by rewrite elem_of_list_to_set, elem_of_dom.
Qed.

Lemma subscription_list_mirrors_channels_witness :
  let l := [Call (DoSubscribe "team_presence_t1" "cb_a" 1 10);
            Call (DoSubscribe "team_members_t1" "cb_b" 2 11);
            Call (DoSubscribe "team_members_t1" "cb_c" 3 12);
            Call (DoUnsubscribeFn (Remove "team_presence_t1" "cb_a"));
            Heartbeat 1 connected 30000] in
  subscriptions (connection (history l connected_session)) = ["team_members_t1"] ∧
  length (subscriptions (connection (history l connected_session)))
    = size (channelsRef (history l connected_session)).
Proof.
  intros l.
  destruct (subscription_list_mirrors_channels l connected_session) as (_ & _ & H).
  - split; [apply NoDup_nil_2|]. intros c. vm_compute. split; [|by intros [? ?]].
    by intros ?%not_elem_of_nil.
  - split; [reflexivity | exact H].
Defined.

Lemma consistent_frame (c : string) (s s' : state) :
  channelsRef s' !! c = channelsRef s !! c ->
  creations c s' = creations c s -> teardowns c s' = teardowns c s ->
  channel_consistent c s -> channel_consistent c s'.
Proof. unfold channel_consistent. by intros -> -> ->. Qed.

Lemma presence_calls_not_counted (c : string) (p : UserPresence) (s : state) :
  List.filter (is_creation c) (presence_calls p s) = [] ∧
  List.filter (is_teardown c) (presence_calls p s) = [].
Proof.
  unfold presence_calls.
  generalize (filter (fun kv => includes "presence" kv.1 = true)
                (map_to_list (channelsRef s))) as l.
  induction l as [|kv l [IH1 IH2]]; simpl; done.
Qed.

Lemma consistent_tracked (c : string) (p : UserPresence) (s : state) :
  channel_consistent c s -> channel_consistent c (track_all p s).
Proof.
  rewrite track_all_fields. apply consistent_frame; [done|..];
    unfold creations, teardowns; simpl; rewrite List.filter_app;
    destruct (presence_calls_not_counted c p s) as [H1 H2]; rewrite ?H1, ?H2; done.
Qed.

Lemma unsubscribe_calls_counted (c : string) (l : list (string * ChannelSubscription)) :
  NoDup l.*1 -> (∀ kv, kv ∈ l -> topic (channel kv.2) = kv.1) ->
  length (List.filter (is_teardown c)
            ((fun kv => ChannelUnsubscribed (channel kv.2)) <$> l))
    = (if decide (c ∈ l.*1) then 1 else 0)%nat ∧
  List.filter (is_creation c) ((fun kv => ChannelUnsubscribed (channel kv.2)) <$> l) = [].
Proof.
  induction l as [|kv l IH]; intros Hnd Htop.
  - simpl. split; [|done]. destruct (decide (c ∈ [])) as [H|_]; [|done].
    by apply not_elem_of_nil in H.
  - rewrite fmap_cons in Hnd. apply NoDup_cons in Hnd as [Hnotin Hnd].
    destruct IH as [IHt IHc]; [done | by intros kv' Hkv'; apply Htop; right |].
    split; [|exact IHc].
    rewrite !fmap_cons. cbn [List.filter is_teardown].
    rewrite (Htop kv) by left.
    destruct (decide (kv.1 = c)) as [Heq|Hne].
    + rewrite bool_decide_eq_true_2 by done. cbn [length]. rewrite IHt.
      subst c. destruct (decide (kv.1 ∈ l.*1)); [done|].
      destruct (decide (kv.1 ∈ kv.1 :: l.*1)) as [_|Hn]; [done|].
      exfalso. apply Hn. left.
    + rewrite bool_decide_eq_false_2 by done. rewrite IHt.
      destruct (decide (c ∈ l.*1)) as [Hin|Hnin];
        destruct (decide (c ∈ kv.1 :: l.*1)) as [Hin'|Hnin']; try done.
      * exfalso. apply Hnin'. by right.
      * apply elem_of_cons in Hin' as [->|?]; done.
Qed.

Lemma consistent_teardown (c c' : string) (sub : ChannelSubscription) (s : state) :
  channelsRef s !! c' = Some sub ->
  channel_consistent c' s -> channel_consistent c s ->
  channel_consistent c (teardown c' sub s).
Proof.
  intros Hc' Hinv' Hinv.
  unfold channel_consistent in Hinv'. rewrite Hc' in Hinv'.
  destruct Hinv' as (Htop & _ & Hcnt).
  destruct (decide (c' = c)) as [->|Hne].
  - unfold channel_consistent, creations, teardowns in *. simpl.
    rewrite lookup_delete_eq, Htop, bool_decide_eq_true_2 by done. simpl. done.
  - apply (consistent_frame c s); [| | |done].
    + simpl. by rewrite lookup_delete_ne.
    + done.
    + unfold teardowns. simpl. rewrite Htop. by rewrite bool_decide_eq_false_2.
Qed.

Lemma consistent_happen (e : event) (s : state) :
  (∀ c, channel_consistent c s) -> ∀ c, channel_consistent c (happen e s).
Proof.
  intros Hall c. destruct e as [a | h seen now]; simpl.
  - destruct a as [c' k cb now | f | c' | now p | c' ev pl
                   | cfg seen now rnd probe | cfg h seen now rnd probe | now]; simpl.
    + destruct (decide (c' = c)) as [->|Hne].
      { by destruct (do_call_counts c (Subscribe k cb now) s (Hall c)) as [H _]. }
      destruct (user s) as [u|] eqn:Hu; last by rewrite subscribe_refused by auto.
      destruct (decide (conn_status (connection s) = connected)) as [Hst|Hst];
        last by rewrite subscribe_refused by auto.
      assert (Hsome : is_Some (user s)) by (rewrite Hu; eauto).
      destruct (channelsRef s !! c') as [sub|] eqn:Hc'.
      * rewrite (subscribe_existing c' k cb now s sub) by done. simpl.
        apply (consistent_frame c s); [|done..].
        simpl. by rewrite lookup_insert_ne.
      * destruct (subscribe_first c' k cb now s Hsome Hst Hc')
          as (s' & -> & Hch & Htr & _).
        simpl. apply (consistent_frame c s); [| | |done].
        -- rewrite Hch. by rewrite lookup_insert_ne.
        -- unfold creations. rewrite Htr. simpl.
           by rewrite bool_decide_eq_false_2.
        -- unfold teardowns. by rewrite Htr.
    + destruct f as [|c' k]; simpl; [done|].
      destruct (channelsRef s !! c') as [sub|] eqn:Hc'; [|done].
      destruct (decide (size (delete k (callbacks sub)) = 0%nat)) as [Hz|Hz].
      * pose proof (Hall c') as Hinv'. unfold channel_consistent in Hinv'.
        rewrite Hc' in Hinv'. destruct Hinv' as (Htop & _ & Hcnt).
        destruct (decide (c' = c)) as [->|Hne].
        -- unfold channel_consistent, creations, teardowns in *. simpl.
           rewrite lookup_delete_eq, Htop, bool_decide_eq_true_2 by done. done.
        -- apply (consistent_frame c s); [| | |done].
           ++ simpl. by rewrite lookup_delete_ne.
           ++ done.
           ++ unfold teardowns. simpl. rewrite Htop.
              by rewrite bool_decide_eq_false_2.
      * destruct (decide (c' = c)) as [->|Hne].
        -- pose proof (Hall c) as Hinv. unfold channel_consistent in *. simpl.
           rewrite Hc' in Hinv. rewrite lookup_insert_eq. simpl. tauto.
        -- apply (consistent_frame c s); [|done..].
           simpl. by rewrite lookup_insert_ne.
    + unfold unsubscribe. destruct (channelsRef s !! c') as [sub|] eqn:Hc'; [|done].
      by apply consistent_teardown.
    + unfold updatePresence. destruct (user s) as [uid|]; [|done].
      apply consistent_tracked. exact (Hall c).
    + unfold sendMessage. destruct (channelsRef s !! c'); [|done].
      exact (Hall c).
    + destruct (connect_frame cfg seen now rnd probe s) as (H1 & H2 & _).
      apply (consistent_frame c s); [by rewrite H1 | | | done];
        unfold creations, teardowns; by rewrite H2.
    + destruct (retry_timer_frame cfg h seen now rnd probe s) as (H1 & H2 & _).
      apply (consistent_frame c s); [by rewrite H1 | | | done];
        unfold creations, teardowns; by rewrite H2.
    + rewrite disconnect_fields.
      destruct (unsubscribe_calls_counted c (map_to_list (channelsRef s)))
        as [Hcount Hnocreate].
      { apply NoDup_fst_map_to_list. }
      { intros [c0 sub0] Hin%elem_of_map_to_list. simpl.
        pose proof (Hall c0) as H0. unfold channel_consistent in H0.
        rewrite Hin in H0. by destruct H0. }
      pose proof (Hall c) as Hinv. unfold channel_consistent in *.
      unfold creations, teardowns in *. simpl. rewrite lookup_empty.
      rewrite !List.filter_app, !length_app, Hcount, Hnocreate. simpl.
      destruct (channelsRef s !! c) as [sub|] eqn:Hc.
      * destruct (decide (c ∈ (map_to_list (channelsRef s)).*1)) as [_|Hn]; [lia|].
        exfalso. apply Hn. apply list_elem_of_fmap. exists (c, sub).
        split; [done|]. by apply elem_of_map_to_list.
      * destruct (decide (c ∈ (map_to_list (channelsRef s)).*1)) as [Hin|_]; [|lia].
        apply list_elem_of_fmap in Hin as ([c0 sub0] & -> & Hin).
        apply elem_of_map_to_list in Hin. simpl in Hc. congruence.
  - destruct (decide (h ∈ intervals s)); [|done].
    unfold heartbeat_tick.
    destruct (decide (seen = connected)); [|done].
    destruct (presenceRef s) as [p|]; [|done].
    pose proof (consistent_tracked c (set_last_seen now p) s (Hall c)) as H.
    exact H.
Qed.

(** X8: From a state where every channel name is consistently bound, as the
    first render is, after any run: each name has at most one physical
    channel that was created and not torn down, and has one exactly when
    the map has an entry for it; a [disconnect] then leaves no physical
    channel of any name behind. *)
Theorem no_physical_channel_is_leaked (l : list event) (now : Z) (s : state) :
  (∀ c, channel_consistent c s) ->
  let s' := history l s in
  (∀ c, (live_channels c s' <= 1)%nat ∧
        (live_channels c s' = 1%nat ↔ is_Some (channelsRef s' !! c))) ∧
  (∀ c, creations c (disconnect now s') = teardowns c (disconnect now s') ∧
        live_channels c (disconnect now s') = 0%nat).
Proof.
  intros Hall.
  assert (Hall' : ∀ c, channel_consistent c (history l s)).
  { revert s Hall. induction l as [|e l IH]; intros s Hall; [done|].
    simpl. apply IH. by apply consistent_happen. }
  simpl. split.
  - intros c. by apply channel_consistent_live.
  - intros c.
    pose proof (consistent_happen (Call (DoDisconnect now)) _ Hall' c) as Hd.
    simpl in Hd. unfold channel_consistent in Hd.
    assert (Hch : channelsRef (disconnect now (history l s)) = ∅) by reflexivity.
    rewrite Hch, lookup_empty in Hd.
    split; [done|]. unfold live_channels. rewrite Hd. lia.
Qed.

Lemma no_physical_channel_is_leaked_witness :
  let l := [Call (DoSubscribe "team_presence_t1" "cb_a" 1 10);
            Call (DoSubscribe "team_members_t1" "cb_b" 2 11);
            Call (DoUnsubscribe "team_members_t1");
            Call (DoSubscribe "team_members_t1" "cb_c" 3 12)] in
  live_channels "team_members_t1" (history l connected_session) = 1%nat ∧
  live_channels "team_members_t1" (disconnect 20 (history l connected_session)) = 0%nat.
Proof.
  intros l.
  destruct (no_physical_channel_is_leaked l 20 connected_session) as [_ Hd].
  - intros c. unfold channel_consistent.
    change (channelsRef connected_session) with (∅ : gmap string ChannelSubscription).
    rewrite lookup_empty. reflexivity.
  - split; [reflexivity|]. apply Hd.
Defined.

(** ** Connecting *)

(** X9: [connect] does nothing without a user or while a connect is under
    way.  Otherwise a probe that succeeds leaves the status connected, the
    retry counter at 0 and a fresh heartbeat interval running in place of
    the one the ref held; pending retry timers are not touched. *)
Theorem connect_success_resets
    (cfg : RealtimeConfig) (seen : nat) (now : Z) (random : Q) (s : state) :
  (∀ probe, user s = None ∨ isConnectingRef s = true ->
     connect cfg seen now random probe s = s) ∧
  (is_Some (user s) -> isConnectingRef s = false ->
   let s' := connect cfg seen now random None s in
   conn_status (connection s') = connected ∧
   reconnect_attempts (connection s') = 0%nat ∧
   isConnectingRef s' = false ∧
   heartbeatRef s' = Some (fresh s) ∧
   fresh s ∈ intervals s' ∧
   (∀ h, heartbeatRef s = Some h -> h ≠ fresh s -> h ∉ intervals s') ∧
   timeouts s' = timeouts s ∧
   channelsRef s' = channelsRef s).
Proof.
  split.
  - intros probe H. unfold connect. destruct (user s); [|done].
    destruct (isConnectingRef s); [done|]. by destruct H.
  - intros [u Hu] Hic. unfold connect. rewrite Hu, Hic. simpl.
    unfold startHeartbeat. simpl.
    destruct (heartbeatRef s) as [h0|] eqn:Hh; simpl; split_and!; try done.
    + apply elem_of_union. right. by apply elem_of_singleton.
    + intros h [= <-] Hne [[_ Hn]%elem_of_difference | ?%elem_of_singleton]%elem_of_union;
        [|done]. apply Hn. by apply elem_of_singleton.
    + apply elem_of_union. right. by apply elem_of_singleton.
Qed.

Lemma connect_success_resets_witness :
  let s := consecutive_failures DEFAULT_CONFIG 0 0 "fetch failed" 3 new_session in
  reconnect_attempts (connection s) = 2%nat ∧
  conn_status (connection (connect DEFAULT_CONFIG 2 5 0 None s)) = connected ∧
  reconnect_attempts (connection (connect DEFAULT_CONFIG 2 5 0 None s)) = 0%nat.
Proof.
  intros s.
  destruct (connect_success_resets DEFAULT_CONFIG 2 5 0 s) as [_ H].
  destruct H as (Hst & Ha & _); [vm_compute; eauto | reflexivity |].
  split_and!; [reflexivity | exact Hst | exact Ha].
Defined.



End RealtimeProps.

(** * Properties of the team collaboration service *)

Module TeamProps.
Import TeamCollaboration.

(** ** joinTeam: the usage limit *)

(** The claim of C2 fails: an invite that is used up and has also run out
    is answered with the expiry message, the test that comes first. *)
Lemma joinTeam_used_up_but_expired :
  used_invite ∈ team_invites sample_store ∧
  max_uses used_invite = Some 1%Z ∧ (current_uses used_invite >= 1)%Z ∧
  joinTeam (Some "user-3") "" 2000 accepting (invite_code used_invite) sample_store
    = (failure "Invite code has expired", sample_store) ∧
  failure "Invite code has expired" ≠ failure "Invite code has reached maximum uses".
Proof.
  split_and!; try reflexivity.
  - apply list_elem_of_here.
  - vm_compute. discriminate.
  - discriminate.
Qed.

(** A [max_uses] of 0 is falsy in the usage test, which then does not
    apply: the invite admits the caller. *)
Lemma joinTeam_zero_max_uses_admits :
  (current_uses zero_invite >= 0)%Z ∧ max_uses zero_invite = Some 0%Z ∧
  success (joinTeam (Some "user-3") "t1" 500 accepting "zero0000" sample_store).1 = true.
Proof. split_and!; [vm_compute; discriminate | reflexivity | reflexivity]. Qed.

(** C2, as the code has it: for an authenticated caller and a code that the
    query resolves to one active invite which has not run out, if the
    invite has a non-zero [max_uses] and [current_uses] has reached it,
    [joinTeam] returns the failure with the maximum-uses message and the
    data store is as before: no member row, no change of [current_uses],
    no activity. *)
Theorem joinTeam_used_up_invite
    (uid teamId : string) (now : Z) (a : answers) (inviteCode : string) (db : store)
    (inviteData : TeamInvite) (m : Z) :
  find_invite inviteCode db = Some inviteData ->
  (now <= expires_at inviteData)%Z ->
  max_uses inviteData = Some m -> m ≠ 0%Z ->
  (current_uses inviteData >= m)%Z ->
  joinTeam (Some uid) teamId now a inviteCode db
    = (failure "Invite code has reached maximum uses", db).
Proof.
  intros Hfind Hexp Hmax Hm Huses.
  unfold joinTeam, joinTeam_exit. rewrite Hfind.
  destruct (decide (expires_at inviteData < now)%Z); [lia|].
  unfold uses_exhausted. rewrite Hmax.
  rewrite !bool_decide_eq_true_2 by done. reflexivity.
Qed.

Lemma joinTeam_used_up_invite_witness :
  joinTeam (Some "user-3") "" 500 accepting "abcd1234" sample_store
    = (failure "Invite code has reached maximum uses", sample_store).
Proof.
  apply (joinTeam_used_up_invite "user-3" "" 500 accepting "abcd1234" sample_store
           used_invite 1).
  - reflexivity.
  - vm_compute. discriminate.
  - reflexivity.
  - discriminate.
  - vm_compute. discriminate.
Defined.

(** ** joinTeam: the membership test *)

(** The claim of C7 fails: user-2, whose one row in the team is inactive,
    is not an active member and is still answered with the
    already-a-member message. *)
Lemma joinTeam_removed_member_rejected :
  filter (fun m => member_team_id m = "t1" ∧ member_user_id m = "user-2")
    (team_members sample_store) = [removed_member] ∧
  is_active removed_member = false ∧
  ¬ spec_active_member "user-2" "t1" sample_store ∧
  joinTeam (Some "user-2") "" 500 accepting "wxyz5678" sample_store
    = (failure "You are already a member of this team", sample_store).
Proof.
  split_and!; try reflexivity.
  intros (m & Hin & _ & Hu & Hact).
  simpl in Hin. rewrite !elem_of_cons in Hin.
  destruct Hin as [-> | [-> | Hin]]; [discriminate Hu | discriminate Hact | ].
  by apply not_elem_of_nil in Hin.
Qed.

(** C7, as the code has it: once the invite has passed the tests of
    existence, expiry and usage, [joinTeam] leaves by the already-a-member
    failure exactly when the membership query, by team and user alone,
    gives a row; the [is_active] flag of the row plays no part, so a caller
    whose one row in the team is inactive is turned away with that message,
    and the data store is as before. *)
Theorem joinTeam_already_member_iff_row
    (uid teamId : string) (now : Z) (a : answers) (inviteCode : string) (db : store)
    (inviteData : TeamInvite) :
  find_invite inviteCode db = Some inviteData ->
  (now <= expires_at inviteData)%Z ->
  uses_exhausted inviteData = false ->
  ((joinTeam_exit (Some uid) teamId now a inviteCode db).1 = AlreadyMember ↔
   is_Some (existingMember inviteData uid db)) ∧
  (∀ row,
     filter (fun m => member_team_id m = invite_team_id inviteData ∧ member_user_id m = uid)
       (team_members db) = [row] ->
     joinTeam (Some uid) teamId now a inviteCode db
       = (failure "You are already a member of this team", db)).
Proof.
  intros Hfind Hexp Huses.
  unfold joinTeam, joinTeam_exit. rewrite Hfind, Huses.
  destruct (decide (expires_at inviteData < now)%Z); [lia|].
  split.
  - destruct (existingMember inviteData uid db) as [row|] eqn:Hrow.
    + split; eauto.
    + split; [|by intros [? ?]].
      intros H. exfalso. revert H.
      destruct (decide (memberCount inviteData db = 0%Z)); simpl.
      * destruct (member_insert_error a); discriminate.
      * destruct (invite_team inviteData db) as [t|]; simpl; [|discriminate].
        destruct (bool_decide _); simpl; [discriminate|].
        destruct (member_insert_error a); discriminate.
  - intros row Hrow. unfold existingMember. rewrite Hrow. reflexivity.
Qed.

Lemma joinTeam_already_member_iff_row_witness :
  (joinTeam_exit (Some "user-2") "" 500 accepting "wxyz5678" sample_store).1
    = AlreadyMember ∧
  (joinTeam_exit (Some "user-3") "" 500 accepting "wxyz5678" sample_store).1
    ≠ AlreadyMember.
Proof.
  split.
  - apply (joinTeam_already_member_iff_row "user-2" "" 500 accepting "wxyz5678"
             sample_store open_invite); try reflexivity.
    + vm_compute. discriminate.
    + vm_compute. eauto.
  - intros H.
    apply (joinTeam_already_member_iff_row "user-3" "" 500 accepting "wxyz5678"
             sample_store open_invite) in H; try reflexivity.
    + vm_compute in H. by destruct H.
    + vm_compute. discriminate.
Defined.

(** ** updateTeamSettings *)

(** The claim of C8 fails: after an update with the notifications key
    alone, the stored settings are that object; the permissions and
    collaboration keys of the previous settings are gone, where a merge
    would have kept them. *)
Lemma updateTeamSettings_overwrites :
  let partial := [("notifications", JObj [("email", JBool false)])] in
  let r := updateTeamSettings (Some "user-1") "t1" accepting partial sample_store in
  currentMember "t1" "user-1" sample_store = Some sample_owner ∧
  role sample_owner = owner ∧
  returned r = true ∧
  (settings <$> teams (after r)) = [partial] ∧
  is_Some (lookup_key "permissions" (settings sample_team)) ∧
  is_Some (lookup_key "permissions" (spec_merged_settings (settings sample_team) partial)) ∧
  (settings <$> teams (after r)) ≠ [spec_merged_settings (settings sample_team) partial].
Proof.
  split_and!; try reflexivity.
  - vm_compute. eauto.
  - vm_compute. eauto.
  - vm_compute. discriminate.
Qed.

Lemma markActivity_accepted (uid teamId : string) (a : answers) (act : ActivityAction)
    (rt : ResourceType) (rid : string) (meta : list (string * json)) (db : store) :
  teamId ≠ "" ->
  markActivity (Some uid) teamId a act rt rid meta db =
    if activity_insert_refused a then db
    else set_team_activities
           (team_activities db ++
              [{| activity_team_id := teamId; activity_user_id := uid; action := act;
                  resource_type := rt; resource_id := rid; metadata := meta |}]) db.
Proof. intros Hne. unfold markActivity. by destruct (decide (teamId = "")). Qed.

(** C8, as the code has it: for a caller whose row in the team has role
    owner or admin, when the store accepts the update, the settings of the
    team become the object given, as it is: the keys it lacks are not taken
    from the previous settings.  Other teams and the members are untouched,
    and unless the store refuses the insert one team_settings_updated
    activity is added whose metadata holds the top-level keys of the
    object and none of their values. *)
Theorem updateTeamSettings_stores_argument
    (uid teamId : string) (a : answers) (new_settings : TeamSettings) (db : store)
    (m : TeamMember) :
  teamId ≠ "" ->
  currentMember teamId uid db = Some m ->
  role m = owner ∨ role m = admin ->
  settings_update_error a = None ->
  let r := updateTeamSettings (Some uid) teamId a new_settings db in
  returned r = true ∧ set_error r = None ∧
  (∀ t, t ∈ teams (after r) -> team_id t = teamId -> settings t = new_settings) ∧
  (team_id <$> teams (after r)) = (team_id <$> teams db) ∧
  (∀ t, t ∈ teams db -> team_id t ≠ teamId -> t ∈ teams (after r)) ∧
  team_members (after r) = team_members db ∧
  team_activities (after r) =
    if activity_insert_refused a then team_activities db
    else team_activities db ++
           [{| activity_team_id := teamId; activity_user_id := uid;
               action := team_settings_updated; resource_type := rt_team;
               resource_id := teamId;
               metadata := [("updated_settings",
                             JArr (JStr <$> object_keys new_settings))] |}].
Proof.
  intros Hne Hm Hrole Hupd r. subst r.
  unfold updateTeamSettings. rewrite Hm, Hupd.
  destruct (decide (teamId = "")); [done|].
  destruct (decide (role m = owner ∨ role m = admin)); [|done].
  rewrite markActivity_accepted by done. simpl.
  split_and!; try done.
  - intros t Ht Hid.
    assert (Ht' : t ∈ (fun t => if decide (team_id t = teamId)
                                then set_settings new_settings t else t) <$> teams db).
    { by destruct (activity_insert_refused a). }
    apply list_elem_of_fmap in Ht' as (t0 & -> & _).
    destruct (decide (team_id t0 = teamId)); [done|]. done.
  - destruct (activity_insert_refused a); simpl;
      rewrite <- list_fmap_compose; apply list_fmap_ext; intros ? t _; simpl;
      by destruct (decide (team_id t = teamId)).
  - intros t Ht Hid.
    assert (Ht' : t ∈ (fun t => if decide (team_id t = teamId)
                                then set_settings new_settings t else t) <$> teams db).
    { apply list_elem_of_fmap. exists t. split; [|done].
      by destruct (decide (team_id t = teamId)). }
    by destruct (activity_insert_refused a).
  - by destruct (activity_insert_refused a).
  - by destruct (activity_insert_refused a).
Qed.

Lemma updateTeamSettings_stores_argument_witness :
  let partial := [("notifications", JObj [("email", JBool false)])] in
  let r := updateTeamSettings (Some "user-1") "t1" accepting partial sample_store in
  returned r = true ∧
  team_activities (after r) =
    [{| activity_team_id := "t1"; activity_user_id := "user-1";
        action := team_settings_updated; resource_type := rt_team;
        resource_id := "t1";
        metadata := [("updated_settings", JArr [JStr "notifications"])] |}].
Proof.
  intros partial r.
  destruct (updateTeamSettings_stores_argument "user-1" "t1" accepting partial
              sample_store sample_owner) as (Hr & _ & _ & _ & _ & _ & Hact).
  - discriminate.
  - reflexivity.
  - by left.
  - reflexivity.
  - split; [exact Hr | exact Hact].
Defined.

(** * Further properties of the team collaboration service *)

Ltac break_team :=
  repeat match goal with
         | |- context [if ?x then _ else _] => destruct x; simpl
         | |- context [match ?x with _ => _ end] => destruct x; simpl
         end; try done.

(** ** joinTeam *)

(** X11: [joinTeam] writes only when it succeeds: a failure of any kind leaves
    the data store as it was; a success adds exactly one member row, for
    the caller, in the team of the invite, active and with role member,
    and leaves the teams alone. *)
Theorem joinTeam_writes_only_on_success
    (user : option string) (teamId : string) (now : Z) (a : answers)
    (inviteCode : string) (db : store) :
  let r := (joinTeam user teamId now a inviteCode db).1 in
  let db' := (joinTeam user teamId now a inviteCode db).2 in
  (success r = false -> db' = db) ∧
  (success r = true ->
   ∃ uid inviteData m,
     user = Some uid ∧ find_invite inviteCode db = Some inviteData ∧
     member_row r = Some m ∧
     team_members db' = team_members db ++ [m] ∧
     member_user_id m = uid ∧ member_team_id m = invite_team_id inviteData ∧
     role m = member ∧ is_active m = true ∧
     teams db' = teams db).
Proof.
  unfold joinTeam, joinTeam_exit.
  destruct user as [uid|]; [|by split].
  destruct (find_invite inviteCode db) as [inv|] eqn:Hfind; [|by split].
  destruct (decide (expires_at inv < now)%Z); [by split|].
  destruct (uses_exhausted inv); [by split|].
  destruct (existingMember inv uid db); [by split|].
  destruct (decide (memberCount inv db = 0%Z)); simpl.
  - destruct (member_insert_error a); simpl; [by split|].
    split; [done|]. intros _. eexists uid, inv, _.
    split_and!; try reflexivity.
    + unfold markActivity. break_team. 
    + unfold markActivity. break_team.
  - destruct (invite_team inv db); simpl; [|by split].
    destruct (bool_decide _); simpl; [by split|].
    destruct (member_insert_error a); simpl; [by split|].
    split; [done|]. intros _. eexists uid, inv, _.
    split_and!; try reflexivity.
    + unfold markActivity. break_team.
    + unfold markActivity. break_team.
Qed.

(** X12: A code that no single active invite carries is answered as invalid;
    an invite that has run out is answered as expired however many uses it
    has left.  Neither writes anything. *)
Theorem joinTeam_unknown_or_expired
    (uid teamId : string) (now : Z) (a : answers) (inviteCode : string) (db : store) :
  (find_invite inviteCode db = None ->
   joinTeam (Some uid) teamId now a inviteCode db
     = (failure "Invalid or expired invite code", db)) ∧
  (∀ inviteData, find_invite inviteCode db = Some inviteData ->
     (expires_at inviteData < now)%Z ->
     joinTeam (Some uid) teamId now a inviteCode db
       = (failure "Invite code has expired", db)) ∧
  ((∀ i, i ∈ team_invites db -> invite_is_active i = false) ->
   joinTeam (Some uid) teamId now a inviteCode db
     = (failure "Invalid or expired invite code", db)).
Proof.
  split_and!.
  - intros Hfind. unfold joinTeam, joinTeam_exit. by rewrite Hfind.
  - intros inv Hfind Hexp. unfold joinTeam, joinTeam_exit. rewrite Hfind.
    by destruct (decide (expires_at inv < now)%Z).
  - intros Hall. unfold joinTeam, joinTeam_exit.
    assert (Hnone : find_invite inviteCode db = None).
    { unfold find_invite.
      assert (filter (fun i => invite_code i = toUpperCase inviteCode ∧
                               invite_is_active i = true) (team_invites db) = []) as ->;
        [|done].
      induction (team_invites db) as [|i l IH]; [done|].
      rewrite filter_cons_False.
      - apply IH. intros i' Hi'. apply Hall. by right.
      - intros [_ Hact]. rewrite (Hall i) in Hact by left. done. }
    by rewrite Hnone.
Qed.

Lemma joinTeam_unknown_or_expired_witness :
  joinTeam (Some "user-3") "" 2000 accepting "wxyz5678" sample_store
    = (failure "Invite code has expired", sample_store) ∧
  joinTeam (Some "user-3") "" 500 accepting "nocode00" sample_store
    = (failure "Invalid or expired invite code", sample_store).
Proof.
  destruct (joinTeam_unknown_or_expired "user-3" "" 2000 accepting "wxyz5678" sample_store)
    as (_ & Hexp & _).
  destruct (joinTeam_unknown_or_expired "user-3" "" 500 accepting "nocode00" sample_store)
    as (Hunk & _).
  split.
  - apply (Hexp open_invite); [reflexivity | reflexivity].
  - apply Hunk. reflexivity.
Defined.

(** X13: When the invite has passed the earlier tests and the caller has no row
    in the team, a team whose active members are as many as its
    [max_members], or more, turns the caller away with the member-limit
    message and nothing is written. *)
Theorem joinTeam_team_full
    (uid teamId : string) (now : Z) (a : answers) (inviteCode : string) (db : store)
    (inviteData : TeamInvite) (t : Team) :
  find_invite inviteCode db = Some inviteData ->
  (now <= expires_at inviteData)%Z ->
  uses_exhausted inviteData = false ->
  existingMember inviteData uid db = None ->
  invite_team inviteData db = Some t ->
  (0 < memberCount inviteData db)%Z ->
  (max_members t <= memberCount inviteData db)%Z ->
  joinTeam (Some uid) teamId now a inviteCode db
    = (failure "Team has reached maximum member limit", db).
Proof.
  intros Hfind Hexp Huses Hex Hteam Hpos Hfull.
  unfold joinTeam, joinTeam_exit. rewrite Hfind, Huses, Hex, Hteam.
  destruct (decide (expires_at inviteData < now)%Z); [lia|].
  destruct (decide (memberCount inviteData db = 0%Z)); [lia|]. simpl.
  rewrite bool_decide_eq_true_2 by lia. reflexivity.
Qed.

Lemma joinTeam_team_full_witness :
  let full := set_team_members
                [sample_owner;
                 {| member_id := "m3"; member_team_id := "t1"; member_user_id := "user-4";
                    role := member; joined_at := 20; is_active := true |};
                 {| member_id := "m4"; member_team_id := "t1"; member_user_id := "user-5";
                    role := viewer; joined_at := 30; is_active := true |}] sample_store in
  joinTeam (Some "user-3") "" 500 accepting "wxyz5678" full
    = (failure "Team has reached maximum member limit", full).
Proof.
  intros full.
  apply (joinTeam_team_full "user-3" "" 500 accepting "wxyz5678" full open_invite
           sample_team); try reflexivity; vm_compute; discriminate.
Defined.

(** ** Invite codes *)

Lemma upper_ascii_idempotent (c : Ascii.ascii) : upper_ascii (upper_ascii c) = upper_ascii c.
Proof. destruct c as [[] [] [] [] [] [] [] []]; reflexivity. Qed.

Lemma toUpperCase_idempotent (s : string) : toUpperCase (toUpperCase s) = toUpperCase s.
Proof.
  induction s as [|c s IH]; simpl; [done|].
  by rewrite upper_ascii_idempotent, IH.
Qed.

Lemma single_Some {A : Type} (l : list A) (x : A) : single l = Some x -> l = [x].
Proof. destruct l as [|y [|z l]]; simpl; congruence. Qed.

Lemma upper_ascii_is_ascii (c : Ascii.ascii) :
  is_ascii c = true -> is_ascii (upper_ascii c) = true.
Proof. destruct c as [[] [] [] [] [] [] [] []]; vm_compute; congruence. Qed.

Lemma toUpperCase_ascii_only (s : string) :
  ascii_only s = true -> ascii_only (toUpperCase s) = true.
Proof.
  induction s as [|c s IH]; simpl; [done|].
  intros [Hc Hs]%andb_true_iff. apply andb_true_iff. split.
  - by apply upper_ascii_is_ascii.
  - by apply IH.
Qed.

(** X14: A code typed in ASCII characters is compared in upper case: the
    code and its upper-case form find the same invite and leave [joinTeam]
    by the same exit; an invite that is found is an active row whose stored
    code is the upper-case form of the input, itself in ASCII characters,
    so a row whose stored ASCII code has a lower-case letter is found by no
    such input. *)
Theorem invite_code_is_upper_cased
    (user : option string) (teamId : string) (now : Z) (a : answers)
    (inviteCode : string) (db : store) :
  ascii_only inviteCode = true ->
  find_invite (toUpperCase inviteCode) db = find_invite inviteCode db ∧
  (joinTeam_exit user teamId now a (toUpperCase inviteCode) db).1
    = (joinTeam_exit user teamId now a inviteCode db).1 ∧
  (∀ i, find_invite inviteCode db = Some i ->
     i ∈ team_invites db ∧ invite_is_active i = true ∧
     invite_code i = toUpperCase inviteCode ∧
     ascii_only (invite_code i) = true) ∧
  (∀ i, ascii_only (invite_code i) = true ->
     toUpperCase (invite_code i) ≠ invite_code i ->
     find_invite inviteCode db ≠ Some i).
Proof.
  intros Hascii.
  assert (Hsame : find_invite (toUpperCase inviteCode) db = find_invite inviteCode db).
  { unfold find_invite. by rewrite toUpperCase_idempotent. }
  assert (Hfound : ∀ i, find_invite inviteCode db = Some i ->
            i ∈ team_invites db ∧ invite_is_active i = true ∧
            invite_code i = toUpperCase inviteCode).
  { intros i Hi. unfold find_invite in Hi. apply single_Some in Hi.
    assert (Hin : i ∈ filter (fun i => invite_code i = toUpperCase inviteCode ∧
                                       invite_is_active i = true) (team_invites db))
      by (rewrite Hi; left).
    apply list_elem_of_filter in Hin as [[? ?] ?]. done. }
  split_and!; [done | | |].
  - unfold joinTeam_exit. rewrite Hsame.
    destruct user as [uid|]; [|done].
    destruct (find_invite inviteCode db) as [inv|]; [|done].
    break_team.
  - intros i Hi. destruct (Hfound i Hi) as (Hin & Hact & Hcode).
    split_and!; try done. rewrite Hcode. by apply toUpperCase_ascii_only.
  - intros i _ Hne Hi. apply Hfound in Hi as (_ & _ & Hcode).
    apply Hne. rewrite Hcode. apply toUpperCase_idempotent.
Qed.

Lemma invite_code_is_upper_cased_witness :
  find_invite "wxyz5678" sample_store = Some open_invite ∧
  invite_code open_invite = "WXYZ5678" ∧
  find_invite "WXYZ5678" sample_store = find_invite "wxyz5678" sample_store.
Proof.
  destruct (invite_code_is_upper_cased (Some "user-3") "" 500 accepting "wxyz5678"
              sample_store) as (Hsame & _ & Hfound & _); [reflexivity|].
  split_and!; [reflexivity | | exact Hsame].
  destruct (Hfound open_invite) as (_ & _ & Hcode & _); [reflexivity|].
  exact Hcode.
Defined.

Lemma filter_map_preserved {A : Type} (P : A -> Prop) `{!∀ x, Decision (P x)}
    (f : A -> A) (l : list A) :
  (∀ x, P (f x) ↔ P x) -> filter P (map f l) = map f (filter P l).
Proof.
  intros Hf. induction l as [|x l IH]; simpl; [done|].
  destruct (decide (P x)) as [Hx|Hx].
  - rewrite !filter_cons_True by (done || by apply Hf). simpl. by rewrite IH.
  - rewrite !filter_cons_False by (done || by rewrite Hf). done.
Qed.

Lemma team_invites_markActivity user teamId a act rt rid meta (db : store) :
  team_invites (markActivity user teamId a act rt rid meta db) = team_invites db ∧
  team_members (markActivity user teamId a act rt rid meta db) = team_members db ∧
  teams (markActivity user teamId a act rt rid meta db) = teams db.
Proof. unfold markActivity. break_team. Qed.

(** X15: A redemption that succeeds, when the store accepts the update of the
    invite, raises [current_uses] of the invite by exactly one.  So once
    the last use of an invite has been taken, the same code is answered
    with the maximum-uses message for every caller, as long as the invite
    has not run out. *)
Theorem joinTeam_takes_one_use
    (uid teamId : string) (now : Z) (a : answers) (inviteCode : string) (db : store)
    (inviteData : TeamInvite) :
  find_invite inviteCode db = Some inviteData ->
  success (joinTeam (Some uid) teamId now a inviteCode db).1 = true ->
  invite_update_refused a = false ->
  let db' := (joinTeam (Some uid) teamId now a inviteCode db).2 in
  find_invite inviteCode db'
    = Some (set_current_uses (current_uses inviteData + 1) inviteData) ∧
  (∀ uid2 teamId2 now2 a2,
     (now2 <= expires_at inviteData)%Z ->
     max_uses inviteData = Some (current_uses inviteData + 1)%Z ->
     (current_uses inviteData + 1 ≠ 0)%Z ->
     joinTeam (Some uid2) teamId2 now2 a2 inviteCode db'
       = (failure "Invite code has reached maximum uses", db')).
Proof.
  intros Hfind Hsucc Hupd db'.
  assert (Hinv : team_invites db' =
            map (fun i => if decide (invite_id i = invite_id inviteData)
                          then set_current_uses (current_uses inviteData + 1) i else i)
              (team_invites db)).
  { subst db'. revert Hsucc. unfold joinTeam, joinTeam_exit. rewrite Hfind, Hupd.
    destruct (decide (expires_at inviteData < now)%Z); [done|].
    destruct (uses_exhausted inviteData); [done|].
    destruct (existingMember inviteData uid db); [done|].
    destruct (decide (memberCount inviteData db = 0%Z)); cbn -[markActivity].
    - destruct (member_insert_error a); cbn -[markActivity]; [done|]. intros _.
      by rewrite (proj1 (team_invites_markActivity _ _ _ _ _ _ _ _)).
    - destruct (invite_team inviteData db); cbn -[markActivity]; [|done].
      destruct (bool_decide _); cbn -[markActivity]; [done|].
      destruct (member_insert_error a); cbn -[markActivity]; [done|]. intros _.
      by rewrite (proj1 (team_invites_markActivity _ _ _ _ _ _ _ _)). }
  assert (Hfind' : find_invite inviteCode db'
            = Some (set_current_uses (current_uses inviteData + 1) inviteData)).
  { unfold find_invite in *. rewrite Hinv. apply single_Some in Hfind.
    rewrite filter_map_preserved; last first.
    { intros i. by destruct (decide (invite_id i = invite_id inviteData)). }
    rewrite Hfind. simpl.
    by destruct (decide (invite_id inviteData = invite_id inviteData)). }
  split; [done|].
  intros uid2 teamId2 now2 a2 Hexp Hmax Hnz.
  unfold joinTeam, joinTeam_exit. rewrite Hfind'. simpl.
  destruct (decide (expires_at inviteData < now2)%Z); [lia|].
  unfold uses_exhausted. simpl. rewrite Hmax.
  rewrite !bool_decide_eq_true_2 by (done || lia). reflexivity.
Qed.

Lemma joinTeam_takes_one_use_witness :
  let db1 := (joinTeam (Some "user-3") "t1" 500 accepting "mail0001"
                store_with_mail_invite).2 in
  success (joinTeam (Some "user-3") "t1" 500 accepting "mail0001"
             store_with_mail_invite).1 = true ∧
  joinTeam (Some "user-4") "t1" 600 accepting "mail0001" db1
    = (failure "Invite code has reached maximum uses", db1).
Proof.
  intros db1.
  destruct (joinTeam_takes_one_use "user-3" "t1" 500 accepting "mail0001"
              store_with_mail_invite
              {| invite_id := "i9"; invite_team_id := "t1"; invite_code := "MAIL0001";
                 created_by := "user-1"; expires_at := 1000; max_uses := Some 1%Z;
                 current_uses := 0; invite_is_active := true |}) as [_ Hnext];
    try reflexivity.
  split; [reflexivity|].
  apply Hnext; [vm_compute; discriminate | reflexivity | discriminate].
Defined.

(** ** inviteTeamMember *)

(** X16: An invite made by an owner or admin, with a code in upper case that no
    active invite carries yet, is stored active, unused, for one use if an
    address was given and for ten otherwise; [joinTeam] finds it under its
    code, and until it runs out it admits any caller who has no row in the
    team while the team has room. *)
Theorem invite_then_join
    (uid teamId inviteCode : string) (expiresAt : Z) (origin : string)
    (a : answers) (w : write_answers) (mail : option string) (db : store)
    (cm : TeamMember) (t : Team) :
  teamId ≠ "" ->
  currentMember teamId uid db = Some cm -> role cm = owner ∨ role cm = admin ->
  invite_insert_error w = None ->
  toUpperCase inviteCode = inviteCode ->
  (∀ i, i ∈ team_invites db -> invite_is_active i = true -> invite_code i ≠ inviteCode) ->
  let r := (inviteTeamMember (Some uid) teamId inviteCode expiresAt origin a w mail db).1 in
  let db1 := (inviteTeamMember (Some uid) teamId inviteCode expiresAt origin a w mail db).2 in
  invite_success r = true ∧
  response_invite_code r = Some inviteCode ∧
  response_expires_at r = Some expiresAt ∧
  (∃ i, find_invite inviteCode db1 = Some i ∧
        invite_team_id i = teamId ∧ expires_at i = expiresAt ∧
        current_uses i = 0%Z ∧ created_by i = uid ∧
        max_uses i = Some (if email_given mail then 1 else 10)%Z) ∧
  team_members db1 = team_members db ∧
  (∀ uid2 teamId2 now2 a2,
     (now2 <= expiresAt)%Z ->
     currentMember teamId uid2 db = None ->
     head (filter (fun t => team_id t = teamId) (teams db)) = Some t ->
     (Z.of_nat (length (filter (fun m => member_team_id m = teamId ∧ is_active m = true)
                          (team_members db))) < max_members t)%Z ->
     member_insert_error a2 = None ->
     success (joinTeam (Some uid2) teamId2 now2 a2 inviteCode db1).1 = true).
Proof.
  intros Hne Hcm Hrole Hins Hup Hnew r db1.
  set (inv := {| invite_id := new_invite_id w; invite_team_id := teamId;
                 invite_code := inviteCode; created_by := uid; expires_at := expiresAt;
                 max_uses := Some (if email_given mail then 1 else 10)%Z;
                 current_uses := 0; invite_is_active := true |}).
  assert (Hout : r = {| invite_success := true; response_invite_code := Some inviteCode;
                        invite_url := Some (origin +:+ "/join/" +:+ inviteCode);
                        response_expires_at := Some expiresAt; invite_error := None |} ∧
                 team_invites db1 = team_invites db ++ [inv] ∧
                 team_members db1 = team_members db ∧ teams db1 = teams db).
  { subst r db1. unfold inviteTeamMember. rewrite Hcm, Hins.
    destruct (decide (teamId = "")); [done|].
    destruct (decide (role cm = owner ∨ role cm = admin)); [|done].
    cbn -[markActivity].
    match goal with
    | |- context [markActivity ?u ?t ?a ?x ?y ?z ?m ?d] =>
        destruct (team_invites_markActivity u t a x y z m d) as (H1 & H2 & H3)
    end.
    rewrite H1, H2, H3. done. }
  destruct Hout as (Hr & Hinv & Hmem & Hteams).
  assert (Hfind : find_invite inviteCode db1 = Some inv).
  { unfold find_invite. rewrite Hinv, Hup, filter_app.
    assert (filter (fun i => invite_code i = inviteCode ∧ invite_is_active i = true)
              (team_invites db) = []) as ->.
    { clear Hinv. induction (team_invites db) as [|i l IH]; [done|].
      rewrite filter_cons_False.
      - apply IH. intros i' Hi'. apply Hnew. by right.
      - intros [Hc Hact]. by apply (Hnew i); [left|..]. }
    rewrite filter_cons_True by done. done. }
  rewrite Hr. split_and!; try done.
  - exists inv. split_and!; done.
  - intros uid2 teamId2 now2 a2 Hexp Hno Hteam Hroom Hacc.
    unfold joinTeam, joinTeam_exit. rewrite Hfind.
    destruct (decide (expires_at inv < now2)%Z) as [Hlt|_]; [simpl in Hlt; lia|].
    assert (uses_exhausted inv = false) as ->.
    { unfold uses_exhausted. simpl. destruct (email_given mail); reflexivity. }
    unfold existingMember, memberCount, invite_team. rewrite Hmem, Hteams. simpl.
    unfold currentMember in Hno. rewrite Hno, Hteam, Hacc.
    destruct (decide _); simpl; [done|].
    rewrite bool_decide_eq_false_2 by lia. done.
Qed.

Lemma invite_then_join_witness :
  ∃ i, find_invite "MAIL0001" store_with_mail_invite = Some i ∧ max_uses i = Some 1%Z.
Proof.
  destruct (invite_then_join "user-1" "t1" "MAIL0001" 1000 "https://app.example"
              accepting accepting_writes (Some "friend@example.org") sample_store
              sample_owner sample_team)
    as (_ & _ & _ & (i & Hi & _ & _ & _ & _ & Hmax) & _).
  - discriminate.
  - reflexivity.
  - by left.
  - reflexivity.
  - reflexivity.
  - intros i Hi _. simpl in Hi. rewrite !elem_of_cons in Hi.
    destruct Hi as [-> | [-> | [-> | Hi]]]; [discriminate.. |].
    by apply not_elem_of_nil in Hi.
  - exists i. split; [exact Hi | exact Hmax].
Defined.

(** ** Permissions *)

(** X17: A caller who has no single row in the team, or whose row has role
    member or viewer, can neither invite, nor remove a member, nor change a
    role, nor update the settings: each operation reports the failure and
    the data store and the local member list are as before.  An admin is
    turned away by [updateMemberRole] alone. *)
Theorem operations_need_a_role
    (uid teamId : string) (a : answers) (w : write_answers) (db : store)
    (local : list LocalMember) :
  (match currentMember teamId uid db with
   | Some cm => role cm = member ∨ role cm = viewer
   | None => True
   end ->
   (∀ inviteCode expiresAt origin mail,
      let r := inviteTeamMember (Some uid) teamId inviteCode expiresAt origin a w mail db in
      invite_success r.1 = false ∧ r.2 = db) ∧
   (∀ memberId,
      let r := removeTeamMember (Some uid) teamId a w memberId local db in
      m_returned r = false ∧ m_after r = db ∧ m_teamMembers r = local) ∧
   (∀ new_settings,
      let r := updateTeamSettings (Some uid) teamId a new_settings db in
      returned r = false ∧ after r = db)) ∧
  (match currentMember teamId uid db with
   | Some cm => role cm ≠ owner
   | None => True
   end ->
   ∀ memberId r',
     let r := updateMemberRole (Some uid) teamId a w memberId r' local db in
     m_returned r = false ∧ m_after r = db ∧ m_teamMembers r = local ∧
     (teamId ≠ "" -> m_set_error r = Some "Only team owners can change member roles")).
Proof.
  split.
  - intros Hrole. split_and!.
    + intros inviteCode expiresAt origin mail. unfold inviteTeamMember.
      destruct (decide (teamId = "")); [done|].
      destruct (currentMember teamId uid db) as [cm|]; [|done].
      destruct (decide (role cm = owner ∨ role cm = admin)) as [[H|H]|_]; [..|done];
        destruct Hrole as [H'|H']; congruence.
    + intros memberId. unfold removeTeamMember.
      destruct (decide (teamId = "")); [done|].
      destruct (currentMember teamId uid db) as [cm|]; [|done].
      destruct (decide (role cm = owner ∨ role cm = admin)) as [[H|H]|_]; [..|done];
        destruct Hrole as [H'|H']; congruence.
    + intros new_settings. unfold updateTeamSettings.
      destruct (decide (teamId = "")); [done|].
      destruct (currentMember teamId uid db) as [cm|]; [|done].
      destruct (decide (role cm = owner ∨ role cm = admin)) as [[H|H]|_]; [..|done];
        destruct Hrole as [H'|H']; congruence.
  - intros Hrole memberId r'. unfold updateMemberRole.
    destruct (decide (teamId = "")); [done|].
    destruct (currentMember teamId uid db) as [cm|]; [|done].
    destruct (decide (role cm = owner)); done.
Qed.

Lemma operations_need_a_role_witness :
  let db := set_team_members
              [sample_owner;
               {| member_id := "m5"; member_team_id := "t1"; member_user_id := "user-6";
                  role := admin; joined_at := 40; is_active := true |}] sample_store in
  m_returned (updateMemberRole (Some "user-6") "t1" accepting accepting_writes "m1"
                member [] db) = false ∧
  m_after (updateMemberRole (Some "user-6") "t1" accepting accepting_writes "m1"
             member [] db) = db.
Proof.
  intros db.
  destruct (operations_need_a_role "user-6" "t1" accepting accepting_writes db [])
    as [_ H].
  destruct (H ltac:(vm_compute; discriminate) "m1" member) as (H1 & H2 & _).
  split; [exact H1 | exact H2].
Defined.

(** ** removeTeamMember *)

(** X18: A target that is the owner of its team, or an identifier that no
    single row carries, is never removed, whoever calls: the operation
    returns false and the store and the local list are as before. *)
Theorem removeTeamMember_spares_owner
    (user : option string) (teamId : string) (a : answers) (w : write_answers)
    (memberId : string) (local : list LocalMember) (db : store) :
  match single (filter (fun m => member_id m = memberId) (team_members db)) with
  | Some target => role target = owner
  | None => True
  end ->
  let r := removeTeamMember user teamId a w memberId local db in
  m_returned r = false ∧ m_after r = db ∧ m_teamMembers r = local.
Proof.
  intros Htarget. unfold removeTeamMember.
  destruct user as [uid|]; [|done].
  destruct (decide (teamId = "")); [done|].
  destruct (currentMember teamId uid db) as [cm|]; [|done].
  destruct (decide (role cm = owner ∨ role cm = admin)); [|done].
  destruct (single _) as [target|]; [|done].
  destruct (decide (role target = owner)); done.
Qed.

Lemma removeTeamMember_spares_owner_witness :
  m_returned (removeTeamMember (Some "user-1") "t1" accepting accepting_writes "m1"
                [] sample_store) = false ∧
  m_after (removeTeamMember (Some "user-1") "t1" accepting accepting_writes "m1"
             [] sample_store) = sample_store.
Proof.
  destruct (removeTeamMember_spares_owner (Some "user-1") "t1" accepting accepting_writes
              "m1" [] sample_store) as (H1 & H2 & _).
  - vm_compute. reflexivity.
  - split; [exact H1 | exact H2].
Defined.

(** What a removal that goes through leaves. *)
Lemma removeTeamMember_done
    (uid teamId : string) (a : answers) (w : write_answers) (memberId : string)
    (local : list LocalMember) (db : store) (cm target : TeamMember) :
  teamId ≠ "" ->
  currentMember teamId uid db = Some cm -> role cm = owner ∨ role cm = admin ->
  single (filter (fun m => member_id m = memberId) (team_members db)) = Some target ->
  role target ≠ owner ->
  member_update_error w = None ->
  let r := removeTeamMember (Some uid) teamId a w memberId local db in
  m_returned r = true ∧
  team_members (m_after r) =
    map (fun m => if decide (member_id m = memberId) then set_is_active false m else m)
      (team_members db) ∧
  team_invites (m_after r) = team_invites db ∧
  m_teamMembers r = filter (fun lm => member_id (row lm) ≠ memberId) local.
Proof.
  intros Hne Hcm Hrole Htarget Hnot Hupd. unfold removeTeamMember.
  rewrite Hcm, Htarget, Hupd.
  destruct (decide (teamId = "")); [done|].
  destruct (decide (role cm = owner ∨ role cm = admin)); [|done].
  destruct (decide (role target = owner)); [done|].
  cbn -[markActivity].
  match goal with
  | |- context [markActivity ?u ?t ?a ?x ?y ?z ?m ?d] =>
      destruct (team_invites_markActivity u t a x y z m d) as (H1 & H2 & H3)
  end.
  rewrite H1, H2. done.
Qed.

(** X19: A removal is a soft delete: no row leaves the relation and no
    identifier changes, the rows of the target identifier become inactive
    and keep their other columns, every other row is as before, and the
    local list loses the members of that identifier and no other. *)
Theorem removeTeamMember_soft_deletes
    (uid teamId : string) (a : answers) (w : write_answers) (memberId : string)
    (local : list LocalMember) (db : store) (cm target : TeamMember) :
  teamId ≠ "" ->
  currentMember teamId uid db = Some cm -> role cm = owner ∨ role cm = admin ->
  single (filter (fun m => member_id m = memberId) (team_members db)) = Some target ->
  role target ≠ owner ->
  member_update_error w = None ->
  let r := removeTeamMember (Some uid) teamId a w memberId local db in
  m_returned r = true ∧
  (member_id <$> team_members (m_after r)) = (member_id <$> team_members db) ∧
  set_is_active false target ∈ team_members (m_after r) ∧
  (∀ m, m ∈ team_members (m_after r) -> member_id m = memberId -> is_active m = false) ∧
  (∀ m, member_id m ≠ memberId -> m ∈ team_members (m_after r) ↔ m ∈ team_members db) ∧
  (∀ lm, lm ∈ m_teamMembers r ↔ lm ∈ local ∧ member_id (row lm) ≠ memberId).
Proof.
  intros Hne Hcm Hrole Htarget Hnot Hupd r.
  destruct (removeTeamMember_done uid teamId a w memberId local db cm target)
    as (Hret & Hmem & _ & Hloc); try done.
  fold r in Hret, Hmem, Hloc. rewrite Hmem, Hloc.
  apply single_Some in Htarget.
  assert (Hin : target ∈ team_members db ∧ member_id target = memberId).
  { assert (H : target ∈ filter (fun m => member_id m = memberId) (team_members db))
      by (rewrite Htarget; left).
    apply list_elem_of_filter in H. tauto. }
  destruct Hin as [Hin Hid].
  split_and!.
  - done.
  - rewrite <- list_fmap_compose. apply list_fmap_ext. intros ? m _. simpl.
    by destruct (decide (member_id m = memberId)).
  - apply list_elem_of_fmap. exists target. split; [|done].
    by destruct (decide (member_id target = memberId)).
  - intros m [m0 [-> Hm0]]%list_elem_of_fmap.
    destruct (decide (member_id m0 = memberId)); simpl; done.
  - intros m Hm. rewrite list_elem_of_fmap. split.
    + intros [m0 [-> Hm0]].
      destruct (decide (member_id m0 = memberId)); simpl in *; done.
    + intros Hin'. exists m. split; [|done].
      by destruct (decide (member_id m = memberId)).
  - intros lm. rewrite list_elem_of_filter. tauto.
Qed.

Lemma removeTeamMember_soft_deletes_witness :
  let db := set_team_members
              [sample_owner;
               {| member_id := "m3"; member_team_id := "t1"; member_user_id := "user-4";
                  role := member; joined_at := 20; is_active := true |}] sample_store in
  let r := removeTeamMember (Some "user-1") "t1" accepting accepting_writes "m3" [] db in
  m_returned r = true ∧
  (member_id <$> team_members (m_after r)) = ["m1"; "m3"].
Proof.
  intros db r.
  destruct (removeTeamMember_soft_deletes "user-1" "t1" accepting accepting_writes "m3"
              [] db sample_owner
              {| member_id := "m3"; member_team_id := "t1"; member_user_id := "user-4";
                 role := member; joined_at := 20; is_active := true |})
    as (H1 & H2 & _); [.. | split; [exact H1 | exact H2]];
    try reflexivity; try discriminate; by left.
Defined.

(** X20: A member who has been removed is no longer counted among the active
    members of the team, and cannot come back with an invite: their row is
    still there, so [joinTeam] answers that they are already a member. *)
Theorem removed_member_cannot_rejoin
    (uid teamId : string) (a : answers) (w : write_answers) (memberId : string)
    (local : list LocalMember) (db : store) (cm target : TeamMember)
    (inviteCode : string) (inviteData : TeamInvite) (teamId2 : string) (now2 : Z)
    (a2 : answers) :
  teamId ≠ "" ->
  currentMember teamId uid db = Some cm -> role cm = owner ∨ role cm = admin ->
  single (filter (fun m => member_id m = memberId) (team_members db)) = Some target ->
  role target ≠ owner ->
  member_update_error w = None ->
  find_invite inviteCode db = Some inviteData ->
  invite_team_id inviteData = member_team_id target ->
  (now2 <= expires_at inviteData)%Z -> uses_exhausted inviteData = false ->
  existingMember inviteData (member_user_id target) db = Some target ->
  let db' := m_after (removeTeamMember (Some uid) teamId a w memberId local db) in
  joinTeam (Some (member_user_id target)) teamId2 now2 a2 inviteCode db'
    = (failure "You are already a member of this team", db') ∧
  (is_active target = true -> (memberCount inviteData db' = memberCount inviteData db - 1)%Z).
Proof.
  intros Hne Hcm Hrole Htarget Hnot Hupd Hfind Hteam Hexp Huses Hex db'.
  destruct (removeTeamMember_done uid teamId a w memberId local db cm target)
    as (_ & Hmem & Hinv & _); try done.
  fold db' in Hmem, Hinv.
  assert (Hid : member_id target = memberId).
  { apply single_Some in Htarget.
    assert (H : target ∈ filter (fun m => member_id m = memberId) (team_members db))
      by (rewrite Htarget; left).
    apply list_elem_of_filter in H. tauto. }
  split.
  - unfold joinTeam, joinTeam_exit.
    assert (find_invite inviteCode db' = Some inviteData) as ->
      by (unfold find_invite in *; by rewrite Hinv).
    destruct (decide (expires_at inviteData < now2)%Z); [lia|]. rewrite Huses.
    assert (existingMember inviteData (member_user_id target) db'
              = Some (set_is_active false target)) as ->; [|done].
    unfold existingMember in *. rewrite Hmem. apply single_Some in Hex.
    rewrite filter_map_preserved; last first.
    { intros m. by destruct (decide (member_id m = memberId)). }
    rewrite Hex. simpl. by destruct (decide (member_id target = memberId)).
  - intros Hact. unfold memberCount. rewrite Hmem.
    apply single_Some in Htarget. clear Hmem Hinv Hex Hfind Hcm.
    revert Htarget. generalize (team_members db) as l.
    induction l as [|m l IH]; intros Hl; [done|].
    rewrite filter_cons in Hl. simpl map.
    destruct (decide (member_id m = memberId)) as [Hm|Hm].
    + injection Hl as -> Hl.
      rewrite filter_cons_False by (simpl; intros [_ ?]; done).
      rewrite filter_cons_True by done.
      assert (map (fun m => if decide (member_id m = memberId)
                            then set_is_active false m else m) l = l) as ->.
      { clear IH. induction l as [|m' l IH]; [done|].
        rewrite filter_cons in Hl.
        destruct (decide (member_id m' = memberId)); [done|].
        simpl. destruct (decide (member_id m' = memberId)); [done|].
        by rewrite IH. }
      cbn [length]. lia.
    + specialize (IH Hl). rewrite !filter_cons.
      destruct (decide (member_team_id m = invite_team_id inviteData ∧ is_active m = true));
        cbn [length]; lia.
Qed.

Lemma removed_member_cannot_rejoin_witness :
  let user4 := {| member_id := "m3"; member_team_id := "t1"; member_user_id := "user-4";
                  role := member; joined_at := 20; is_active := true |} in
  let db := set_team_members [sample_owner; user4] sample_store in
  let db' := m_after (removeTeamMember (Some "user-1") "t1" accepting accepting_writes
                        "m3" [] db) in
  joinTeam (Some "user-4") "t1" 500 accepting "wxyz5678" db'
    = (failure "You are already a member of this team", db').
Proof.
  intros user4 db db'.
  destruct (removed_member_cannot_rejoin "user-1" "t1" accepting accepting_writes "m3"
              [] db sample_owner user4 "wxyz5678" open_invite "t1" 500 accepting)
    as [H _]; [.. | exact H];
    try reflexivity; try discriminate; try (by left); vm_compute; discriminate.
Defined.

(** ** updateMemberRole *)

(** X21: When the owner changes a role and the store accepts it, every row of
    the identifier gets the new role, whatever its role was, and keeps its
    other columns; no row is added or dropped and rows of other
    identifiers are as before; the local list is patched the same way.
    With an identifier that no row carries the rows are unchanged, and
    the operation still returns true and logs the activity. *)
Theorem updateMemberRole_sets_role
    (uid teamId : string) (a : answers) (w : write_answers) (memberId : string)
    (r' : TeamRole) (local : list LocalMember) (db : store) (cm : TeamMember) :
  teamId ≠ "" ->
  currentMember teamId uid db = Some cm -> role cm = owner ->
  member_update_error w = None ->
  let r := updateMemberRole (Some uid) teamId a w memberId r' local db in
  m_returned r = true ∧
  (member_id <$> team_members (m_after r)) = (member_id <$> team_members db) ∧
  (∀ m, m ∈ team_members (m_after r) -> member_id m = memberId -> role m = r') ∧
  (∀ m, member_id m ≠ memberId -> m ∈ team_members (m_after r) ↔ m ∈ team_members db) ∧
  ((∀ m, m ∈ team_members db -> member_id m ≠ memberId) ->
   team_members (m_after r) = team_members db) ∧
  length (m_teamMembers r) = length local ∧
  (∀ lm, lm ∈ m_teamMembers r -> member_id (row lm) = memberId -> role (row lm) = r') ∧
  (activity_insert_refused a = false ->
   team_activities (m_after r) =
     team_activities db ++
       [{| activity_team_id := teamId; activity_user_id := uid;
           action := member_role_updated; resource_type := rt_member;
           resource_id := memberId;
           metadata := [("new_role", JStr (role_name r'))] |}]).
Proof.
  intros Hne Hcm Hrole Hupd r. subst r. unfold updateMemberRole.
  rewrite Hcm, Hupd.
  destruct (decide (teamId = "")); [done|].
  destruct (decide (role cm = owner)); [|done].
  rewrite markActivity_accepted by done.
  assert (Hmem : ∀ acts db0,
            team_members (if activity_insert_refused a then db0
                          else set_team_activities acts db0) = team_members db0)
    by (intros; by destruct (activity_insert_refused a)).
  cbn [m_returned m_after m_teamMembers]. rewrite Hmem. simpl.
  split_and!.
  - done.
  - rewrite <- list_fmap_compose. apply list_fmap_ext. intros ? m _. simpl.
    by destruct (decide (member_id m = memberId)).
  - intros m [m0 [-> Hm0]]%list_elem_of_fmap.
    destruct (decide (member_id m0 = memberId)); simpl; done.
  - intros m Hm. rewrite list_elem_of_fmap. split.
    + intros [m0 [-> Hm0]].
      destruct (decide (member_id m0 = memberId)); simpl in *; done.
    + intros Hin'. exists m. split; [|done].
      by destruct (decide (member_id m = memberId)).
  - intros Hnone. induction (team_members db) as [|m l IH]; [done|].
    simpl. destruct (decide (member_id m = memberId)) as [Hm|_].
    + exfalso. by apply (Hnone m); [left|].
    + f_equal. apply IH. intros m' Hm'. apply Hnone. by right.
  - apply length_map.
  - intros lm [lm0 [-> Hlm0]]%list_elem_of_fmap.
    destruct (decide (member_id (row lm0) = memberId)); simpl; done.
  - intros ->. done.
Qed.

Lemma updateMemberRole_sets_role_witness :
  let user4 := {| member_id := "m3"; member_team_id := "t1"; member_user_id := "user-4";
                  role := member; joined_at := 20; is_active := true |} in
  let db := set_team_members [sample_owner; user4] sample_store in
  let r := updateMemberRole (Some "user-1") "t1" accepting accepting_writes "m3" admin
             [] db in
  m_returned r = true ∧ (role <$> team_members (m_after r)) = [owner; admin].
Proof.
  intros user4 db r.
  destruct (updateMemberRole_sets_role "user-1" "t1" accepting accepting_writes "m3" admin
              [] db sample_owner) as (H1 & _);
    [.. | split; [exact H1 | reflexivity]];
    try reflexivity; discriminate.
Defined.

(** ** Realtime handlers *)

Lemma filter_keeps_all_team {A : Type} (P : A -> Prop) `{!∀ x, Decision (P x)}
    (l : list A) :
  Forall P l -> filter P l = l.
Proof.
  induction 1 as [|x l Hx _ IH]; [done|].
  by rewrite filter_cons_True, IH.
Qed.

Lemma length_slice0 {A : Type} (finish : Z) (l : list A) :
  (0 <= finish)%Z ->
  Z.of_nat (length (slice0 finish l)) = Z.min finish (Z.of_nat (length l)).
Proof.
  intros Hf. unfold slice0. destruct (finish <? 0)%Z eqn:Hlt; [lia|].
  rewrite length_take. lia.
Qed.

(** X22: With a limit of at least 1, an activity insert for the hook's team puts
    the new record first and keeps the list within the limit, even when it
    was longer before; any other event leaves the list alone.  So a list
    within the limit stays within it through any sequence of events. *)
Theorem handleActivityUpdate_keeps_limit
    (teamId : string) (activityLimit : Z) (prev : list TeamActivity)
    (events : list (event_type * TeamActivity)) :
  (1 <= activityLimit)%Z ->
  (∀ newRecord, activity_team_id newRecord = teamId ->
     let l := handleActivityUpdate teamId activityLimit INSERT newRecord prev in
     head l = Some newRecord ∧
     Z.of_nat (length l) = Z.min (1 + Z.of_nat (length prev)) activityLimit ∧
     tail l = take (length l - 1) prev) ∧
  (∀ eventType newRecord,
     eventType ≠ INSERT ∨ activity_team_id newRecord ≠ teamId ->
     handleActivityUpdate teamId activityLimit eventType newRecord prev = prev) ∧
  ((Z.of_nat (length prev) <= activityLimit)%Z ->
   (Z.of_nat (length (foldl (fun acc e =>
                               handleActivityUpdate teamId activityLimit e.1 e.2 acc)
                        prev events)) <= activityLimit)%Z).
Proof.
  intros Hlim.
  assert (Hone : ∀ ev newRecord l,
            (Z.of_nat (length l) <= activityLimit)%Z ->
            (Z.of_nat (length (handleActivityUpdate teamId activityLimit ev newRecord l))
               <= activityLimit)%Z).
  { intros ev newRecord l Hl. unfold handleActivityUpdate.
    destruct ev; [|done..].
    destruct (decide (activity_team_id newRecord = teamId)); [|done].
    cbn [length]. rewrite Nat2Z.inj_succ, length_slice0 by lia. lia. }
  split_and!.
  - intros newRecord Hteam. unfold handleActivityUpdate.
    destruct (decide (activity_team_id newRecord = teamId)); [|done].
    cbn [head length tail]. split_and!; [done| |].
    + rewrite Nat2Z.inj_succ, length_slice0 by lia. lia.
    + replace (S (length (slice0 (activityLimit - 1) prev)) - 1)%nat
        with (length (slice0 (activityLimit - 1) prev)) by lia.
      unfold slice0.
      destruct (activityLimit - 1 <? 0)%Z eqn:Hlt; [lia|].
      rewrite length_take.
      destruct (Nat.le_ge_cases (Z.to_nat (activityLimit - 1)) (length prev)) as [Hle|Hge].
      * by rewrite Nat.min_l.
      * by rewrite Nat.min_r, firstn_all, take_ge.
  - intros ev newRecord Hev. unfold handleActivityUpdate.
    destruct ev; [|done..].
    destruct (decide (activity_team_id newRecord = teamId)); [|done].
    by destruct Hev.
  - revert prev. induction events as [|e events IH]; intros prev Hprev; [done|].
    simpl. apply IH. by apply Hone.
Qed.

Lemma handleActivityUpdate_keeps_limit_witness :
  let rec := fun n => {| activity_team_id := "t1"; activity_user_id := "user-1";
                         action := property_created; resource_type := rt_property;
                         resource_id := n; metadata := [] |} in
  handleActivityUpdate "t1" 2 INSERT (rec "p3") [rec "p2"; rec "p1"]
    = [rec "p3"; rec "p2"].
Proof.
  intros rec.
  destruct (handleActivityUpdate_keeps_limit "t1" 2 [rec "p2"; rec "p1"] [])
    as (H & _); [lia|].
  destruct (H (rec "p3") eq_refl) as (Hhd & Hlen & Htl).
  reflexivity.
Defined.

(** X23: A membership event never adds a member to the local list and never
    changes the identifier or the profile of one; handling the same event
    a second time changes nothing more.  After a delete no member has the
    deleted identifier; after an update for the hook's team the members of
    that identifier carry the new record; an insert leaves the list alone
    and asks for a reload exactly when it is for the hook's team. *)
Theorem handleTeamMemberUpdate_is_idempotent
    (teamId : string) (payload : member_change) (prev : list LocalMember) :
  let r := handleTeamMemberUpdate teamId payload prev in
  (length r.1 <= length prev)%nat ∧
  (∀ lm, lm ∈ r.1 ->
     ∃ lm0, lm0 ∈ prev ∧ member_id (row lm) = member_id (row lm0) ∧
            user_profile lm = user_profile lm0) ∧
  handleTeamMemberUpdate teamId payload r.1 = r ∧
  match payload with
  | MemberInserted newRecord =>
      r.1 = prev ∧ (r.2 = true ↔ member_team_id newRecord = teamId)
  | MemberUpdated newRecord =>
      member_team_id newRecord = teamId ->
      length r.1 = length prev ∧
      ∀ lm, lm ∈ r.1 -> member_id (row lm) = member_id newRecord -> row lm = newRecord
  | MemberDeleted oldRecord =>
      ∀ lm, lm ∈ r.1 -> member_id (row lm) ≠ member_id oldRecord
  end.
Proof.
  destruct payload as [new | new | old]; simpl.
  - split_and!; try done.
    + intros lm Hlm. eauto.
    + apply bool_decide_eq_true.
  - destruct (decide (member_team_id new = teamId)) as [Ht|Ht]; simpl.
    + split_and!.
      * by rewrite length_map.
      * intros lm [lm0 [-> Hlm0]]%list_elem_of_fmap. exists lm0.
        destruct (decide (member_id (row lm0) = member_id new)); simpl; done.
      * destruct (decide (member_team_id new = teamId)); [|done].
        f_equal. rewrite <- list_fmap_compose. apply list_fmap_ext.
        intros ? lm _. simpl.
        destruct (decide (member_id (row lm) = member_id new)) as [?|Hn]; simpl.
        -- by destruct (decide (member_id new = member_id new)).
        -- by destruct (decide (member_id (row lm) = member_id new)).
      * intros _. split; [apply length_map|].
        intros lm [lm0 [-> Hlm0]]%list_elem_of_fmap.
        destruct (decide (member_id (row lm0) = member_id new)); simpl; done.
    + split_and!; try done.
      intros lm Hlm. eauto.
  - split_and!.
    + apply length_filter.
    + intros lm [_ Hlm]%list_elem_of_filter. eauto.
    + f_equal. apply filter_keeps_all_team. apply Forall_forall.
      by intros lm [? _]%list_elem_of_filter.
    + by intros lm [? _]%list_elem_of_filter.
Qed.

(** ** The settings form *)

Lemma lookup_key_cons (k k' : string) (v : json) (o : list (string * json)) :
  lookup_key k ((k', v) :: o) = if decide (k' = k) then Some v else lookup_key k o.
Proof.
  unfold lookup_key. simpl. destruct (decide (k' = k)); [done|].
  by destruct (list_find (fun kv => kv.1 = k) o) as [[i kv]|].
Qed.

Lemma lookup_key_app (k : string) (o1 o2 : list (string * json)) :
  lookup_key k (o1 ++ o2) =
  match lookup_key k o1 with Some v => Some v | None => lookup_key k o2 end.
Proof.
  induction o1 as [|[k' v] o1 IH]; [done|].
  simpl. rewrite !lookup_key_cons. by destruct (decide (k' = k)).
Qed.

(** The value of a key after [{ ...old, ...updates }]. *)
Lemma lookup_key_spread (k : string) (old updates : TeamSettings) :
  lookup_key k (spec_merged_settings old updates) =
  match lookup_key k updates with Some v => Some v | None => lookup_key k old end.
Proof.
  unfold spec_merged_settings. rewrite lookup_key_app.
  assert (Hold : lookup_key k
            (map (fun kv => (kv.1, default kv.2 (lookup_key kv.1 updates))) old)
          = match lookup_key k old with
            | Some v => Some (default v (lookup_key k updates))
            | None => None
            end).
  { induction old as [|[k' v] old IH]; [done|].
    simpl. rewrite !lookup_key_cons. destruct (decide (k' = k)) as [->|]; done. }
  rewrite Hold. clear Hold. unfold TeamSettings in *.
  destruct (lookup_key k old) as [v|] eqn:Hk.
  - by destruct (lookup_key k updates).
  - induction updates as [|[k' v'] updates IH]; [done|].
    rewrite filter_cons, !lookup_key_cons. simpl.
    destruct (decide (k' = k)) as [->|Hne].
    + rewrite decide_True by done. by rewrite lookup_key_cons, decide_True.
    + destruct (decide (lookup_key k' old = None)); [|done].
      by rewrite lookup_key_cons, decide_False.
Qed.

(** X24: Edits in the settings form are merged key by key: after any sequence of
    edits a key holds the value of the last edit that has it, or its
    initial value, so no key of the initial settings is lost.  Saving with
    no change calls nothing; saving a change as owner or admin stores the
    whole form object, which still has every key the form started with. *)
Theorem settings_form_keeps_every_key
    (initial : TeamSettings) (edits : list TeamSettings)
    (uid teamId : string) (a : answers) (db : store) (cm : TeamMember) :
  let form := foldl updateLocalSettings initial edits in
  (∀ k updates, lookup_key k (updateLocalSettings initial updates) =
     match lookup_key k updates with Some v => Some v | None => lookup_key k initial end) ∧
  (∀ k, is_Some (lookup_key k initial) -> is_Some (lookup_key k form)) ∧
  handleSave false (Some uid) teamId a form db = None ∧
  (teamId ≠ "" -> currentMember teamId uid db = Some cm ->
   role cm = owner ∨ role cm = admin -> settings_update_error a = None ->
   ∃ r, handleSave true (Some uid) teamId a form db = Some r ∧ returned r = true ∧
        ∀ t k, t ∈ teams (after r) -> team_id t = teamId ->
               is_Some (lookup_key k initial) -> is_Some (lookup_key k (settings t))).
Proof.
  intros form.
  assert (Hkeys : ∀ k, is_Some (lookup_key k initial) -> is_Some (lookup_key k form)).
  { subst form. revert initial. induction edits as [|e edits IH]; intros initial k Hk; [done|].
    simpl. apply IH. unfold updateLocalSettings. rewrite lookup_key_spread.
    destruct (lookup_key k e); eauto. }
  split_and!; [by intros; apply lookup_key_spread | done | done |].
  intros Hne Hcm Hrole Hupd. eexists. split; [reflexivity|].
  unfold updateTeamSettings. rewrite Hcm, Hupd.
  destruct (decide (teamId = "")); [done|].
  destruct (decide (role cm = owner ∨ role cm = admin)); [|done].
  cbn -[markActivity]. split; [done|].
  intros t k Ht Hid Hk.
  match type of Ht with
  | context [markActivity ?u ?t0 ?a0 ?x ?y ?z ?m ?d] =>
      destruct (team_invites_markActivity u t0 a0 x y z m d) as (_ & _ & H3)
  end.
  rewrite H3 in Ht. simpl in Ht.
  apply list_elem_of_fmap in Ht as (t0 & -> & _).
  destruct (decide (team_id t0 = teamId)); [by apply Hkeys | done].
Qed.

Lemma settings_form_keeps_every_key_witness :
  let form := foldl updateLocalSettings default_settings
                [[("notifications", JObj [("email", JBool false)])]] in
  ∃ r, handleSave true (Some "user-1") "t1" accepting form sample_store = Some r ∧
       (object_keys <$> (settings <$> teams (after r)))
         = [["notifications"; "permissions"; "collaboration"]].
Proof.
  intros form.
  destruct (settings_form_keeps_every_key default_settings
              [[("notifications", JObj [("email", JBool false)])]]
              "user-1" "t1" accepting sample_store sample_owner) as (_ & _ & _ & H).
  destruct H as (r & Hr & _); [discriminate | reflexivity | by left | reflexivity |].
  exists r. split; [exact Hr|].
  injection Hr as <-. reflexivity.
Defined.

End TeamProps.

(** * The presence badge *)

Module MemberListProps.
Import Realtime MemberList.

(** X25: The badge shows a member as offline as soon as five minutes have passed
    since [last_seen] (300000 ms, the bound included), whatever status is
    stored, and when no presence is known; before that it shows the stored
    status. *)
Theorem getPresenceStatus_five_minutes (now : Z) (presence : option UserPresence) :
  badge_status (getPresenceStatus now presence) =
  match presence with
  | None => offline
  | Some p => if decide (now - last_seen p < 300000)%Z then status p else offline
  end.
Proof.
  destruct presence as [p|]; [|done]. unfold getPresenceStatus.
  destruct (Qlt_le_dec _ 5) as [Hlt|Hle];
    destruct (decide (now - last_seen p < 300000)%Z) as [Hd|Hd].
  - by destruct (status p).
  - exfalso. revert Hlt. unfold Qlt, Qdiv, Qmult, Qinv. simpl. lia.
  - exfalso. revert Hle. unfold Qle, Qdiv, Qmult, Qinv. simpl. lia.
  - done.
Qed.

End MemberListProps.

(** * The team channels *)

Module TeamChannelsProps.
Import Realtime RealtimeProps TeamChannels.

Lemma unsubscribe_last_callback (c k : string) (h : callback) (s : state)
    (sub : ChannelSubscription) :
  channelsRef s !! c = Some sub -> callbacks sub = {[k := h]} ->
  channelsRef (run_unsubscribe_fn (Remove c k) s) = delete c (channelsRef s).
Proof.
  intros Hc Hcb. unfold run_unsubscribe_fn. rewrite Hc, Hcb, delete_singleton_eq.
  destruct (decide (size (∅ : gmap string callback) = 0%nat)) as [_|Hn]; [done|].
  by rewrite map_size_empty in Hn.
Qed.

(** X26: On a connected session where the three channels of the team have no
    entry yet, the effect registers the three handlers, each on its own
    channel, sets the local presence to online in that team on the current
    page, and announces it on the presence channel of the team.  Its
    cleanup takes the three entries away again and leaves the channel map
    as it was before the effect. *)
Theorem subscription_effect_sets_up_and_cleans_up
    (uid teamId : string) (k1 k2 k3 : string) (h1 h2 h3 : callback) (now : Z)
    (pathname : string) (s : state) :
  teamId ≠ "" -> user s = Some uid -> conn_status (connection s) = connected ->
  channelsRef s !! ("team_presence_" +:+ teamId) = None ->
  channelsRef s !! ("team_members_" +:+ teamId) = None ->
  channelsRef s !! ("team_activities_" +:+ teamId) = None ->
  let r := subscription_effect teamId true true k1 k2 k3 h1 h2 h3 now pathname [] s in
  registered ("team_presence_" +:+ teamId) k1 r.1 = Some h1 ∧
  registered ("team_members_" +:+ teamId) k2 r.1 = Some h2 ∧
  registered ("team_activities_" +:+ teamId) k3 r.1 = Some h3 ∧
  (∃ p sub, presenceRef r.1 = Some p ∧
     team_id p = teamId ∧ status p = online ∧ current_page p = Some pathname ∧
     user_id p = uid ∧
     channelsRef r.1 !! ("team_presence_" +:+ teamId) = Some sub ∧
     Tracked (channel sub) p ∈ transport r.1) ∧
  channelsRef (run_all r.2 r.1) = channelsRef s.
Proof.
  intros Hne Hu Hst Hc1 Hc2 Hc3 r. subst r. unfold subscription_effect.
  destruct (decide (teamId = "")); [done|]. cbn [negb run_all foldl].
  set (c1 := "team_presence_" +:+ teamId) in *.
  set (c2 := "team_members_" +:+ teamId) in *.
  set (c3 := "team_activities_" +:+ teamId) in *.
  assert (H12 : c1 ≠ c2) by (subst c1 c2; intros H; cbv [String.app] in H; discriminate H).
  assert (H13 : c1 ≠ c3) by (subst c1 c3; intros H; cbv [String.app] in H; discriminate H).
  assert (H23 : c2 ≠ c3) by (subst c2 c3; intros H; cbv [String.app] in H; discriminate H).
  assert (Hsome : is_Some (user s)) by (rewrite Hu; eauto).
  destruct (subscribe_first c1 k1 h1 now s Hsome Hst Hc1)
    as (s1 & E1 & Hch1 & Htr1 & _ & Hst1 & Hu1).
  rewrite E1. cbn [fst snd].
  assert (Hsome1 : is_Some (user s1)) by (by rewrite Hu1).
  assert (Hst1' : conn_status (connection s1) = connected) by congruence.
  assert (Hc2' : channelsRef s1 !! c2 = None) by (by rewrite Hch1, lookup_insert_ne).
  destruct (subscribe_first c2 k2 h2 now s1 Hsome1 Hst1' Hc2')
    as (s2 & E2 & Hch2 & Htr2 & _ & Hst2 & Hu2).
  rewrite E2. cbn [fst snd].
  assert (Hsome2 : is_Some (user s2)) by (by rewrite Hu2).
  assert (Hst2' : conn_status (connection s2) = connected) by congruence.
  assert (Hc3' : channelsRef s2 !! c3 = None)
    by (by rewrite Hch2, lookup_insert_ne, Hch1, lookup_insert_ne).
  destruct (subscribe_first c3 k3 h3 now s2 Hsome2 Hst2' Hc3')
    as (s3 & E3 & Hch3 & Htr3 & _ & Hst3 & Hu3).
  rewrite E3. cbn [fst snd].
  assert (Hu3' : user s3 = Some uid) by congruence. rewrite Hu3'.
  set (pres := team_presence teamId pathname).
  assert (Hch4 : channelsRef (updatePresence now pres s3) = channelsRef s3).
  { unfold updatePresence. rewrite Hu3'. by rewrite channelsRef_track_all. }
  assert (L1 : channelsRef s3 !! c1 =
               Some {| channel := {| handle := fresh s; topic := c1 |};
                       callbacks := {[k1 := h1]}; lastActivity := now |}).
  { rewrite Hch3, lookup_insert_ne, Hch2, lookup_insert_ne, Hch1 by done.
    apply lookup_insert_eq. }
  assert (L2 : channelsRef s3 !! c2 =
               Some {| channel := {| handle := fresh s1; topic := c2 |};
                       callbacks := {[k2 := h2]}; lastActivity := now |}).
  { rewrite Hch3, lookup_insert_ne, Hch2 by done. apply lookup_insert_eq. }
  assert (L3 : channelsRef s3 !! c3 =
               Some {| channel := {| handle := fresh s2; topic := c3 |};
                       callbacks := {[k3 := h3]}; lastActivity := now |}).
  { rewrite Hch3. apply lookup_insert_eq. }
  split_and!.
  - unfold registered. rewrite Hch4, L1. simpl. apply lookup_singleton_eq.
  - unfold registered. rewrite Hch4, L2. simpl. apply lookup_singleton_eq.
  - unfold registered. rewrite Hch4, L3. simpl. apply lookup_singleton_eq.
  - exists (updatedPresence uid now pres). eexists. split_and!.
    + unfold updatePresence. rewrite Hu3'. by rewrite presenceRef_track_all.
    + done.
    + done.
    + done.
    + done.
    + rewrite Hch4. exact L1.
    + unfold updatePresence. rewrite Hu3', transport_track_all.
      apply elem_of_app. left. unfold presence_calls. simpl.
      apply (list_elem_of_fmap_2
               (fun kv => Tracked (channel kv.2) (updatedPresence uid now pres)) _
               (c1, {| channel := {| handle := fresh s; topic := c1 |};
                       callbacks := {[k1 := h1]}; lastActivity := now |})).
      apply list_elem_of_filter. split; [done|]. by apply elem_of_map_to_list.
  - cbn [run_all foldl].
    set (t0 := updatePresence now pres s3) in *.
    assert (M1 : channelsRef (run_unsubscribe_fn (Remove c1 k1) t0)
                 = delete c1 (channelsRef s3)).
    { rewrite <- Hch4. eapply unsubscribe_last_callback; [by rewrite Hch4|done]. }
    set (t1 := run_unsubscribe_fn (Remove c1 k1) t0) in *.
    assert (M2 : channelsRef (run_unsubscribe_fn (Remove c2 k2) t1)
                 = delete c2 (delete c1 (channelsRef s3))).
    { rewrite <- M1.
      eapply unsubscribe_last_callback;
        [rewrite M1, lookup_delete_ne by done; exact L2 | done]. }
    set (t2 := run_unsubscribe_fn (Remove c2 k2) t1) in *.
    erewrite unsubscribe_last_callback;
      [| rewrite M2, !lookup_delete_ne by done; exact L3 | done].
    rewrite M2, Hch3, Hch2, Hch1.
    apply map_eq. intros c.
    destruct (decide (c = c3)) as [->|N3]; [by rewrite lookup_delete_eq, Hc3|].
    rewrite lookup_delete_ne by done.
    destruct (decide (c = c2)) as [->|N2]; [by rewrite lookup_delete_eq, Hc2|].
    rewrite lookup_delete_ne by done.
    destruct (decide (c = c1)) as [->|N1]; [by rewrite lookup_delete_eq, Hc1|].
    rewrite lookup_delete_ne by done.
    by rewrite !lookup_insert_ne.
Qed.

Lemma subscription_effect_sets_up_and_cleans_up_witness :
  let r := subscription_effect "t1" true true "cb_p" "cb_m" "cb_a" 1 2 3 10
             "/properties" [] connected_session in
  registered "team_members_t1" "cb_m" r.1 = Some 2%nat ∧
  channelsRef (run_all r.2 r.1) = channelsRef connected_session.
Proof.
  intros r.
  destruct (subscription_effect_sets_up_and_cleans_up "user-1" "t1" "cb_p" "cb_m" "cb_a"
              1 2 3 10 "/properties" connected_session)
    as (_ & H2 & _ & _ & H5); [discriminate | reflexivity.. |].
  split; [exact H2 | exact H5].
Defined.

End TeamChannelsProps.
